(** * Device configuration header of the sensor-node firmware

    A shallow embedding of [firmware/device_config.h]: the compiled-in
    defaults (a run of [#define] lines), the three preset blocks
    ([#ifdef PRESET_x] ... [#endif], each a run of [#undef]/[#define]
    lines) and the validation block ([#if] ... [#error]/[#warning]).

    The preprocessor's macro table is a finite map from macro names to
    macro bodies; running the header is a fold of its directives over that
    table.  The include guard ([DEVICE_CONFIG_H]) and the preset switches
    ([PRESET_x]) are not configuration fields and are kept out of the
    table: the switches are the argument of [device_config_h]. *)

From Stdlib Require Import ZArith QArith Lia.
From coqutil Require Import Byte Word.LittleEndianList.
From stdpp Require Import base option list strings gmap fin_maps fin_sets countable.

Local Open Scope string_scope.
Local Open Scope Z_scope.
Local Open Scope list_scope.

(** ** Macro bodies *)

(** The bodies that occur in the header: string literals, the C++ keywords
    [true]/[false], integer literals, floating literals (kept exact, as
    rationals) and bare identifiers ([D4], [A0], [DHT22]). *)
Inductive value : Type :=
  | VStr (s : string)
  | VBool (b : bool)
  | VInt (n : Z)
  | VFloat (q : Q)
  | VIdent (name : string).

(** The macro table; the resolved configuration is the table after the
    defaults and the selected preset blocks have been processed. *)
Abbreviation ResolvedConfig := (gmap string value).

(** ** Directives *)

(** [#define NAME body] and [#undef NAME]. *)
Inductive edit : Type :=
  | Define (name : string) (body : value)
  | Undef (name : string).

Definition apply_edit (cfg : ResolvedConfig) (e : edit) : ResolvedConfig :=
  match e with
  | Define k v => <[k := v]> cfg
  | Undef k => delete k cfg
  end.

(** A run of [#define]/[#undef] lines, processed top to bottom. *)
Definition apply_block (b : list edit) (cfg : ResolvedConfig) : ResolvedConfig :=
  fold_left apply_edit b cfg.

(** ** Compiled-in defaults (lines 7-133) *)

Definition defaults : list edit :=
  [ (* device identification *)
    Define "DEVICE_ID" (VStr "ESP8266_001");
    Define "DEVICE_NAME" (VStr "Kitchen Sensor Node");
    Define "DEVICE_LOCATION" (VStr "Kitchen");
    Define "FIRMWARE_VERSION" (VStr "2.1.0");
    (* wifi configuration *)
    Define "WIFI_SSID" (VStr "YOUR_WIFI_NETWORK");
    Define "WIFI_PASSWORD" (VStr "YOUR_WIFI_PASSWORD");
    Define "WIFI_CONNECT_TIMEOUT_SEC" (VInt 30);
    Define "WIFI_RECONNECT_ATTEMPTS" (VInt 3);
    Define "WIFI_RECONNECT_DELAY_MS" (VInt 5000);
    (* server configuration *)
    Define "SERVER_URL" (VStr "https://your-iot-platform.com");
    Define "SERVER_API_KEY" (VStr "your-api-key-here");
    Define "USE_HTTPS" (VBool true);
    Define "SERVER_FINGERPRINT" (VStr "");
    (* device behavior settings *)
    Define "HEARTBEAT_INTERVAL_SEC" (VInt 300);
    Define "SENSOR_READ_INTERVAL_MS" (VInt 5000);
    Define "TELEMETRY_BATCH_SIZE" (VInt 5);
    Define "DEVICE_ARMED" (VBool true);
    Define "DEBUG_MODE" (VBool false);
    Define "OTA_ENABLED" (VBool true);
    (* temperature and humidity sensor *)
    Define "SENSOR_DHT_ENABLED" (VBool true);
    Define "SENSOR_DHT_PIN" (VIdent "D4");
    Define "SENSOR_DHT_TYPE" (VIdent "DHT22");
    Define "TEMP_THRESHOLD_MIN" (VFloat (-10 # 1));
    Define "TEMP_THRESHOLD_MAX" (VFloat (40 # 1));
    Define "HUMIDITY_THRESHOLD_MIN" (VFloat (20 # 1));
    Define "HUMIDITY_THRESHOLD_MAX" (VFloat (80 # 1));
    (* light sensor *)
    Define "SENSOR_LIGHT_ENABLED" (VBool true);
    Define "SENSOR_LIGHT_PIN" (VIdent "A0");
    Define "LIGHT_THRESHOLD_MIN" (VInt 100);
    Define "LIGHT_THRESHOLD_MAX" (VInt 900);
    Define "LIGHT_CALIBRATION_OFFSET" (VFloat (0 # 1));
    Define "LIGHT_CALIBRATION_MULTIPLIER" (VFloat (1 # 1));
    (* motion sensor *)
    Define "SENSOR_MOTION_ENABLED" (VBool true);
    Define "SENSOR_MOTION_PIN" (VIdent "D2");
    Define "MOTION_THRESHOLD_MIN" (VInt 0);
    Define "MOTION_THRESHOLD_MAX" (VInt 1);
    Define "MOTION_DETECTION_TIMEOUT_MS" (VInt 30000);
    (* distance sensor *)
    Define "SENSOR_DISTANCE_ENABLED" (VBool true);
    Define "SENSOR_DISTANCE_TRIGGER_PIN" (VIdent "D5");
    Define "SENSOR_DISTANCE_ECHO_PIN" (VIdent "D6");
    Define "DISTANCE_THRESHOLD_MIN" (VFloat (5 # 1));
    Define "DISTANCE_THRESHOLD_MAX" (VFloat (200 # 1));
    (* sound level sensor *)
    Define "SENSOR_SOUND_ENABLED" (VBool false);
    Define "SENSOR_SOUND_PIN" (VIdent "A0");
    Define "SOUND_THRESHOLD_MIN" (VInt 100);
    Define "SOUND_THRESHOLD_MAX" (VInt 800);
    (* magnetic door/window sensor *)
    Define "SENSOR_MAGNETIC_ENABLED" (VBool false);
    Define "SENSOR_MAGNETIC_PIN" (VIdent "D3");
    Define "MAGNETIC_THRESHOLD_MIN" (VInt 0);
    Define "MAGNETIC_THRESHOLD_MAX" (VInt 1);
    (* vibration sensor *)
    Define "SENSOR_VIBRATION_ENABLED" (VBool false);
    Define "SENSOR_VIBRATION_PIN" (VIdent "D7");
    Define "VIBRATION_THRESHOLD_MIN" (VInt 0);
    Define "VIBRATION_THRESHOLD_MAX" (VInt 1);
    (* gas sensor *)
    Define "SENSOR_GAS_ENABLED" (VBool false);
    Define "SENSOR_GAS_PIN" (VIdent "A0");
    Define "GAS_THRESHOLD_MIN" (VInt 100);
    Define "GAS_THRESHOLD_MAX" (VInt 600);
    (* advanced settings *)
    Define "WATCHDOG_TIMEOUT_MS" (VInt 30000);
    Define "CONFIG_EEPROM_ADDR" (VInt 0);
    Define "CONFIG_MAGIC_NUMBER" (VInt 0x12345678);
    Define "MAX_FAILED_CONNECTIONS" (VInt 5);
    (* data transmission settings *)
    Define "USE_JSON_COMPRESSION" (VBool false);
    Define "MAX_RETRY_ATTEMPTS" (VInt 3);
    Define "HTTP_REQUEST_TIMEOUT_MS" (VInt 10000);
    (* power management *)
    Define "DEEP_SLEEP_ENABLED" (VBool false);
    Define "DEEP_SLEEP_DURATION_SEC" (VInt 300);
    Define "BATTERY_MONITORING_ENABLED" (VBool false);
    Define "LOW_BATTERY_THRESHOLD_V" (VFloat (32 # 10)) ].

(** The field registry: the macro table after the defaults. *)
Definition registry : ResolvedConfig := apply_block defaults ∅.

(** ** Preset blocks (lines 140-187) *)

Inductive preset : Type := PRESET_KITCHEN | PRESET_SECURITY | PRESET_ENVIRONMENTAL.

Definition preset_block (p : preset) : list edit :=
  match p with
  | PRESET_KITCHEN =>
      [ Undef "DEVICE_ID"; Undef "DEVICE_NAME"; Undef "DEVICE_LOCATION";
        Define "DEVICE_ID" (VStr "KITCHEN_001");
        Define "DEVICE_NAME" (VStr "Kitchen Monitor");
        Define "DEVICE_LOCATION" (VStr "Kitchen");
        Undef "SENSOR_MOTION_ENABLED";
        Define "SENSOR_MOTION_ENABLED" (VBool false);
        Undef "TEMP_THRESHOLD_MAX";
        Define "TEMP_THRESHOLD_MAX" (VFloat (35 # 1)) ]
  | PRESET_SECURITY =>
      [ Undef "DEVICE_ID"; Undef "DEVICE_NAME"; Undef "DEVICE_LOCATION";
        Define "DEVICE_ID" (VStr "SECURITY_001");
        Define "DEVICE_NAME" (VStr "Security Sensor");
        Define "DEVICE_LOCATION" (VStr "Front Door");
        Undef "SENSOR_DHT_ENABLED";
        Define "SENSOR_DHT_ENABLED" (VBool false);
        Undef "SENSOR_MAGNETIC_ENABLED";
        Define "SENSOR_MAGNETIC_ENABLED" (VBool true);
        Undef "HEARTBEAT_INTERVAL_SEC";
        Define "HEARTBEAT_INTERVAL_SEC" (VInt 60) ]
  | PRESET_ENVIRONMENTAL =>
      [ Undef "DEVICE_ID"; Undef "DEVICE_NAME"; Undef "DEVICE_LOCATION";
        Define "DEVICE_ID" (VStr "ENV_001");
        Define "DEVICE_NAME" (VStr "Environmental Monitor");
        Define "DEVICE_LOCATION" (VStr "Living Room");
        Undef "SENSOR_MOTION_ENABLED";
        Define "SENSOR_MOTION_ENABLED" (VBool false);
        Undef "SENSOR_DISTANCE_ENABLED";
        Define "SENSOR_DISTANCE_ENABLED" (VBool false);
        Undef "SENSOR_GAS_ENABLED";
        Define "SENSOR_GAS_ENABLED" (VBool true) ]
  end.

(** The presets in the order their blocks stand in the header. *)
Definition presets : list preset :=
  [PRESET_KITCHEN; PRESET_SECURITY; PRESET_ENVIRONMENTAL].

(** [#ifdef PRESET_x] block [#endif]: the block is processed when the
    switch is defined and skipped otherwise. *)
Definition ifdef (selected : preset -> bool) (cfg : ResolvedConfig) (p : preset)
  : ResolvedConfig :=
  if selected p then apply_block (preset_block p) cfg else cfg.

(** ** Resolution *)

(** The mapping a block stands for on its own: what it leaves defined
    when it is processed on an empty table. *)
Definition overlay_map (b : list edit) : ResolvedConfig := apply_block b ∅.

(** Defaults first, then the block of the chosen overlay (if any) on top. *)
Definition resolve (reg : ResolvedConfig) (overlay : option (list edit))
  : ResolvedConfig :=
  match overlay with
  | None => reg
  | Some b => apply_block b reg
  end.

(** The macro name a line is about, and the names a block touches. *)
Definition edit_name (e : edit) : string :=
  match e with
  | Define k _ | Undef k => k
  end.

Definition block_names (b : list edit) : list string := edit_name <$> b.

(** A block is an overlay of a registry when every name it touches is a
    field of the registry and is defined again by the end of the block:
    each [#undef] is made up for by a later [#define]. *)
Definition overlay_of (reg : ResolvedConfig) (b : list edit) : bool :=
  forallb (fun k => bool_decide (is_Some (reg !! k))
                    && bool_decide (is_Some (overlay_map b !! k)))
          (block_names b).

(** The field names of a configuration, one per entry. *)
Definition keys (cfg : ResolvedConfig) : list string := (map_to_list cfg).*1.

(** Lines 7-187 of the header for a given choice of switches. *)
Definition device_config_h (selected : preset -> bool) : ResolvedConfig :=
  fold_left (ifdef selected) presets registry.

(** No switch, and exactly one switch. *)
Definition no_preset : preset -> bool := fun _ => false.

Definition only (p : preset) : preset -> bool :=
  fun p' =>
    match p, p' with
    | PRESET_KITCHEN, PRESET_KITCHEN
    | PRESET_SECURITY, PRESET_SECURITY
    | PRESET_ENVIRONMENTAL, PRESET_ENVIRONMENTAL => true
    | _, _ => false
    end.

Definition select (choice : option preset) : preset -> bool :=
  match choice with
  | None => no_preset
  | Some p => only p
  end.

(** ** Validation block (lines 189-206) *)

(** The controlling expressions of the block's [#if] lines:
    [defined(NAME)], a macro name (expanded before evaluation), [!], [&&]
    and [||]. *)
Inductive cond : Type :=
  | CDefined (name : string)
  | CMacro (name : string)
  | CNot (c : cond)
  | CAnd (a b : cond)
  | COr (a b : cond).

(** The words that are operators in C++ ([and] is [&&], [not] is [!],
    ...) and [defined]: none of them can be a macro name, and none is an
    operand of an expression. *)
Definition operator_names : list string :=
  [ "and"; "or"; "not"; "bitand"; "bitor"; "xor"; "compl";
    "and_eq"; "or_eq"; "xor_eq"; "not_eq"; "defined" ].

Definition is_operator (x : string) : bool :=
  existsb (String.eqb x) operator_names.

(** The name under which a body can be a macro itself: an identifier,
    and also [true] and [false], which the preprocessor reads as
    identifiers until the expression is evaluated. *)
Definition token_name (v : value) : option string :=
  match v with
  | VBool true => Some "true"
  | VBool false => Some "false"
  | VIdent x => if is_operator x then None else Some x
  | VStr _ | VInt _ | VFloat _ => None
  end.

(** Macro expansion of one token.  A token that names a macro is replaced
    by the macro's body, and the body is scanned again; while it is, the
    macro itself is not available (a name is never expanded inside its
    own expansion), which is the table without it.  Every step removes a
    name from the table, so [fuel] equal to the size of the table is
    never used up.  The table stands for every macro defined at that
    point; the tables of the headers hold the headers' own macros, whose
    bodies name no macro the compiler predefines. *)
Fixpoint rescan (fuel : nat) (cfg : ResolvedConfig) (v : value) : value :=
  match fuel, token_name v with
  | S fuel', Some x =>
      match cfg !! x with
      | Some body => rescan fuel' (delete x cfg) body
      | None => v
      end
  | _, _ => v
  end.

Definition expand (cfg : ResolvedConfig) (v : value) : value :=
  rescan (size cfg) cfg v.

(** The macro names the expansion of a token looks up, in order. *)
Fixpoint reads (fuel : nat) (cfg : ResolvedConfig) (v : value) : list string :=
  match fuel, token_name v with
  | S fuel', Some x =>
      x :: match cfg !! x with
           | Some body => reads fuel' (delete x cfg) body
           | None => []
           end
  | O, Some x => [x]
  | _, None => []
  end.

(** The value inside [#if] of a token that is left after expansion.  The
    firmware is an Arduino sketch, compiled as C++: [true] and [false]
    are 1 and 0 and any other identifier is 0; an integer is evaluated in
    64 bits and is true when it is not zero there; string and floating
    literals are not allowed in [#if] at all, and an operator word alone
    is no operand. *)
Definition truth (v : value) : option bool :=
  match v with
  | VBool b => Some b
  | VInt n => Some (negb (n mod 2 ^ 64 =? 0))
  | VIdent x => if is_operator x then None else Some (String.eqb x "true")
  | VStr _ | VFloat _ => None
  end.

(** A name in the expression is expanded and then evaluated, so an
    undefined name is 0; an operand that is not allowed makes the whole
    expression invalid, whatever the other operand is. *)
Fixpoint eval_cond (cfg : ResolvedConfig) (c : cond) : option bool :=
  match c with
  | CDefined k => Some (bool_decide (is_Some (cfg !! k)))
  | CMacro k => truth (expand cfg (VIdent k))
  | CNot c => negb <$> eval_cond cfg c
  | CAnd a b =>
      match eval_cond cfg a, eval_cond cfg b with
      | Some x, Some y => Some (x && y)
      | _, _ => None
      end
  | COr a b =>
      match eval_cond cfg a, eval_cond cfg b with
      | Some x, Some y => Some (x || y)
      | _, _ => None
      end
  end.

(** The macro names an expression mentions, left to right. *)
Fixpoint cond_fields (c : cond) : list string :=
  match c with
  | CDefined k | CMacro k => [k]
  | CNot c => cond_fields c
  | CAnd a b | COr a b => cond_fields a ++ cond_fields b
  end.

Inductive severity : Type := SevError | SevWarning.

(** The stable identifiers of the issues.  The header's [#error] lines
    are its presence checks and its [#warning] lines its shared-pin
    checks; an [#if] that cannot be evaluated is an error of the
    preprocessor itself.  [THRESHOLD_INVERTED] is listed for reference:
    no line of the header produces it. *)
Inductive issue_code : Type :=
  | REQUIRED_MISSING
  | THRESHOLD_INVERTED
  | PIN_CONFLICT
  | BAD_EXPRESSION.

Record ValidationIssue : Type := mkIssue {
  issue_severity : severity;
  issue_code_of : issue_code;
  issue_message : string;
  issue_fields : list string
}.

(** [#if c] / [#error msg] / [#endif] and [#if c] / [#warning msg] / [#endif]. *)
Inductive check : Type :=
  | ErrorIf (c : cond) (msg : string)
  | WarningIf (c : cond) (msg : string).

(** Lines 192-198: the [#error] checks. *)
Definition presence_checks : list check :=
  [ ErrorIf (COr (CNot (CDefined "WIFI_SSID")) (CNot (CDefined "WIFI_PASSWORD")))
      "WiFi credentials must be configured in WIFI_SSID and WIFI_PASSWORD";
    ErrorIf (CNot (CDefined "SERVER_URL"))
      "Server URL must be configured in SERVER_URL" ].

(** Lines 200-206: the [#warning] checks. *)
Definition pin_checks : list check :=
  [ WarningIf (CAnd (CMacro "SENSOR_LIGHT_ENABLED") (CMacro "SENSOR_SOUND_ENABLED"))
      "Light and Sound sensors both use A0 - only one can be enabled";
    WarningIf (CAnd (CMacro "SENSOR_LIGHT_ENABLED") (CMacro "SENSOR_GAS_ENABLED"))
      "Light and Gas sensors both use A0 - only one can be enabled" ].

Definition validation_block : list check := presence_checks ++ pin_checks.

Definition check_cond (d : check) : cond :=
  match d with
  | ErrorIf c _ | WarningIf c _ => c
  end.


(** The macro names the evaluation of an expression looks up in a table:
    the names it mentions and the names their bodies lead to. *)
Fixpoint cond_reads (cfg : ResolvedConfig) (c : cond) : list string :=
  match c with
  | CDefined k => [k]
  | CMacro k => reads (size cfg) cfg (VIdent k)
  | CNot c => cond_reads cfg c
  | CAnd a b | COr a b => cond_reads cfg a ++ cond_reads cfg b
  end.

(** The macro names the whole block looks up in a table. *)
Definition dependencies (cfg : ResolvedConfig) : list string :=
  flat_map (fun d => cond_reads cfg (check_cond d)) validation_block.

Definition bad_expression (c : cond) : ValidationIssue :=
  mkIssue SevError BAD_EXPRESSION "invalid preprocessor expression" (cond_fields c).

(** One [#if] of the block: the diagnostic is emitted when the expression
    is true, and processing goes on with the next line either way. *)
Definition run_check (cfg : ResolvedConfig) (d : check) : list ValidationIssue :=
  match d with
  | ErrorIf c msg =>
      match eval_cond cfg c with
      | Some true => [mkIssue SevError REQUIRED_MISSING msg (cond_fields c)]
      | Some false => []
      | None => [bad_expression c]
      end
  | WarningIf c msg =>
      match eval_cond cfg c with
      | Some true => [mkIssue SevWarning PIN_CONFLICT msg (cond_fields c)]
      | Some false => []
      | None => [bad_expression c]
      end
  end.

(** The issues of a configuration, in the order of the block. *)
Definition validate (cfg : ResolvedConfig) : list ValidationIssue :=
  flat_map (run_check cfg) validation_block.

Definition is_error (i : ValidationIssue) : bool :=
  match issue_severity i with SevError => true | SevWarning => false end.

Definition is_warning (i : ValidationIssue) : bool :=
  match issue_severity i with SevError => false | SevWarning => true end.

Definition has_code (c : issue_code) (i : ValidationIssue) : bool :=
  match c, issue_code_of i with
  | REQUIRED_MISSING, REQUIRED_MISSING
  | THRESHOLD_INVERTED, THRESHOLD_INVERTED
  | PIN_CONFLICT, PIN_CONFLICT
  | BAD_EXPRESSION, BAD_EXPRESSION => true
  | _, _ => false
  end.

Definition errors (cfg : ResolvedConfig) : list ValidationIssue :=
  List.filter is_error (validate cfg).

Definition warnings (cfg : ResolvedConfig) : list ValidationIssue :=
  List.filter is_warning (validate cfg).

(** A configuration the compiler accepts: no error was emitted.  Warnings
    do not count. *)
Definition activatable (cfg : ResolvedConfig) : bool :=
  match errors cfg with
  | [] => true
  | _ :: _ => false
  end.

(** ** Sensors, pins and thresholds as the header lays them out *)

(** Every sensor's enable switch with the macros naming its pins. *)
Definition sensor_pins : list (string * list string) :=
  [ ("SENSOR_DHT_ENABLED", ["SENSOR_DHT_PIN"]);
    ("SENSOR_LIGHT_ENABLED", ["SENSOR_LIGHT_PIN"]);
    ("SENSOR_MOTION_ENABLED", ["SENSOR_MOTION_PIN"]);
    ("SENSOR_DISTANCE_ENABLED",
       ["SENSOR_DISTANCE_TRIGGER_PIN"; "SENSOR_DISTANCE_ECHO_PIN"]);
    ("SENSOR_SOUND_ENABLED", ["SENSOR_SOUND_PIN"]);
    ("SENSOR_MAGNETIC_ENABLED", ["SENSOR_MAGNETIC_PIN"]);
    ("SENSOR_VIBRATION_ENABLED", ["SENSOR_VIBRATION_PIN"]);
    ("SENSOR_GAS_ENABLED", ["SENSOR_GAS_PIN"]) ].

(** A switch is on when its macro is true inside [#if]. *)
Definition enabled (cfg : ResolvedConfig) (flag : string) : bool :=
  match eval_cond cfg (CMacro flag) with
  | Some true => true
  | _ => false
  end.

(** The pins a sensor is wired to in a configuration. *)
Definition pins_of (cfg : ResolvedConfig) (flag : string) : list string :=
  match List.find (fun s => String.eqb (fst s) flag) sensor_pins with
  | Some (_, pin_macros) =>
      omap (fun k => match cfg !! k with
                     | Some (VIdent pin) => Some pin
                     | _ => None
                     end) pin_macros
  | None => []
  end.

Definition share_pin (cfg : ResolvedConfig) (flag1 flag2 : string) : bool :=
  existsb (fun p => existsb (String.eqb p) (pins_of cfg flag2)) (pins_of cfg flag1).

(** The paired threshold macros, one pair per sensor. *)
Definition threshold_pairs : list (string * string) :=
  [ ("TEMP_THRESHOLD_MIN", "TEMP_THRESHOLD_MAX");
    ("HUMIDITY_THRESHOLD_MIN", "HUMIDITY_THRESHOLD_MAX");
    ("LIGHT_THRESHOLD_MIN", "LIGHT_THRESHOLD_MAX");
    ("MOTION_THRESHOLD_MIN", "MOTION_THRESHOLD_MAX");
    ("DISTANCE_THRESHOLD_MIN", "DISTANCE_THRESHOLD_MAX");
    ("SOUND_THRESHOLD_MIN", "SOUND_THRESHOLD_MAX");
    ("MAGNETIC_THRESHOLD_MIN", "MAGNETIC_THRESHOLD_MAX");
    ("VIBRATION_THRESHOLD_MIN", "VIBRATION_THRESHOLD_MAX");
    ("GAS_THRESHOLD_MIN", "GAS_THRESHOLD_MAX") ].

Definition threshold_fields : list string :=
  flat_map (fun p => [fst p; snd p]) threshold_pairs.

Definition numeric (v : value) : option Q :=
  match v with
  | VInt n => Some (inject_Z n)
  | VFloat q => Some q
  | _ => None
  end.

(** Both thresholds of a pair are numbers and the minimum is strictly
    below the maximum. *)
Definition min_below_max (cfg : ResolvedConfig) (p : string * string) : bool :=
  match cfg !! fst p ≫= numeric, cfg !! snd p ≫= numeric with
  | Some lo, Some hi => negb (Qle_bool hi lo)
  | _, _ => false
  end.

(** Both thresholds of a pair are numbers and the minimum is not below
    the maximum. *)
Definition inverted (cfg : ResolvedConfig) (p : string * string) : bool :=
  match cfg !! fst p ≫= numeric, cfg !! snd p ≫= numeric with
  | Some lo, Some hi => Qle_bool hi lo
  | _, _ => false
  end.

(** A field is present and not the empty string. *)
Definition non_empty (cfg : ResolvedConfig) (k : string) : bool :=
  match cfg !! k with
  | Some (VStr "") | None => false
  | Some _ => true
  end.

Definition identity_fields : list string := ["DEVICE_ID"; "DEVICE_NAME"].

Definition connectivity_fields : list string :=
  ["WIFI_SSID"; "WIFI_PASSWORD"; "SERVER_URL"].

(** ** Persisted store guard *)

(** The firmware that reads and writes the EEPROM record is not part of
    the header; the header only fixes the record's address
    ([CONFIG_EEPROM_ADDR]) and magic number ([CONFIG_MAGIC_NUMBER]).  The
    guard below follows the specification's description of it. *)

#[global] Instance Q_eq_dec : EqDecision Q.
Proof. solve_decision. Defined.

#[global] Instance value_eq_dec : EqDecision value.
Proof. solve_decision. Defined.

Definition value_to_sum (v : value) : string + bool + Z + (Z * positive) + string :=
  match v with
  | VStr s => inl (inl (inl (inl s)))
  | VBool b => inl (inl (inl (inr b)))
  | VInt n => inl (inl (inr n))
  | VFloat q => inl (inr (Qnum q, Qden q))
  | VIdent x => inr x
  end.

Definition value_of_sum (s : string + bool + Z + (Z * positive) + string) : value :=
  match s with
  | inl (inl (inl (inl s))) => VStr s
  | inl (inl (inl (inr b))) => VBool b
  | inl (inl (inr n)) => VInt n
  | inl (inr (n, d)) => VFloat (n # d)
  | inr x => VIdent x
  end.

#[global] Instance value_countable : Countable value.
Proof.
  apply (inj_countable' value_to_sum value_of_sum).
  intros [s|b|n|[n d]|x]; reflexivity.
Defined.

(** The number of bytes that hold a positive number. *)
Definition byte_length (z : Z) : nat := Z.to_nat (Z.log2 z / 8 + 1).

(** Modelled from the spec: the serialized form of a ResolvedConfig (the
    firmware's encoder is not in the header, and the spec leaves the
    encoding open).  The configuration is numbered through the countable
    encoding of finite maps and the number is written in little-endian
    bytes. *)
Definition serialize (cfg : ResolvedConfig) : list byte :=
  let z := Z.pos (encode cfg) in le_split (byte_length z) z.

(** Modelled from the spec: the decoder of the serialized form (the
    firmware's decoder is not in the header); bytes that are no encoding
    of a configuration decode to nothing. *)
Definition deserialize (bytes : list byte) : option ResolvedConfig :=
  match le_combine bytes with
  | Z.pos p => decode p
  | _ => None
  end.

(** Modelled from the spec: the persisted record (its layout in the
    firmware is not in the header): schema version, fixed-width integrity
    tag, serialized configuration. *)
Record PersistedRecord : Type := mkRecord {
  schema_version : Z;
  integrity_tag : Z;
  serialized_config : list byte
}.

(** Modelled from the spec: the outcome of [load] (the firmware's loader
    is not in the header): a configuration, or the report that the record
    is corrupt. *)
Inductive load_outcome : Type :=
  | VALID (cfg : ResolvedConfig)
  | CORRUPT.

(** Modelled from the spec: the outcome of [save] (the firmware's writer
    is not in the header): the record written, or a precondition error. *)
Inductive save_outcome : Type :=
  | SAVED (r : PersistedRecord)
  | PRECONDITION_ERROR.

Section Guard.

(** The tag computed over the serialized bytes and the schema version
    this firmware writes and recognizes; the spec fixes neither. *)
Variable tag_of : list byte -> Z.
Variable current_version : Z.

(** Modelled from the spec: [load] (the firmware's loader is not in the
    header).  The record is corrupt when its schema version is not the
    recognized one or its tag is not the tag recomputed over the stored
    bytes; no configuration is made up for a corrupt record. *)
Definition load (r : PersistedRecord) : load_outcome :=
  if bool_decide (schema_version r = current_version)
     && bool_decide (integrity_tag r = tag_of (serialized_config r))
  then match deserialize (serialized_config r) with
       | Some cfg => VALID cfg
       | None => CORRUPT
       end
  else CORRUPT.

(** Modelled from the spec: [save] (the firmware's writer is not in the
    header).  Only an activatable configuration is accepted; version, tag
    and bytes are written as one unit. *)
Definition save (cfg : ResolvedConfig) : save_outcome :=
  if activatable cfg
  then let bytes := serialize cfg in
       SAVED (mkRecord current_version (tag_of bytes) bytes)
  else PRECONDITION_ERROR.

(** Modelled from the spec: the caller's boot sequence (the firmware's
    setup code is not in the header).  A valid record is used as it is;
    after a corrupt one the configuration is resolved again from the
    compiled-in registry and overlay, and saved to repair the store. *)
Definition boot (reg : ResolvedConfig) (overlay : option (list edit))
    (stored : PersistedRecord) : ResolvedConfig * PersistedRecord :=
  match load stored with
  | VALID cfg => (cfg, stored)
  | CORRUPT =>
      let cfg := resolve reg overlay in
      match save cfg with
      | SAVED r => (cfg, r)
      | PRECONDITION_ERROR => (cfg, stored)
      end
  end.

End Guard.

(** ** Connectivity failure count *)

(** Modelled from the spec: the events of the connectivity reporter (the
    firmware's networking code is not in the header). *)
Inductive connectivity_event : Type := ConnectSuccess | ConnectFailure.

(** Modelled from the spec: the count of consecutive failed connectivity
    attempts (the firmware's counter is not in the header, only its
    ceiling [MAX_FAILED_CONNECTIONS]): a success starts the count again,
    a failure adds one. *)
Definition count_event (failed : nat) (ev : connectivity_event) : nat :=
  match ev with
  | ConnectSuccess => 0%nat
  | ConnectFailure => S failed
  end.

(** Modelled from the spec: the restart-request signal, raised once the
    count has reached the ceiling. *)
Definition restart_requested (ceiling failed : nat) : bool :=
  (ceiling <=? failed)%nat.

(** Modelled from the spec: one event handled by the guard: the new count
    and the signal.  The count is not reset by the signal; the restart is
    left to the runtime. *)
Definition on_event (ceiling : nat) (failed : nat) (ev : connectivity_event)
  : nat * bool :=
  let failed' := count_event failed ev in
  (failed', restart_requested ceiling failed').

(** The count after a run of events, starting from a fresh guard. *)
Definition count_after (events : list connectivity_event) : nat :=
  fold_left count_event events 0%nat.

(** The failures at the start of a list, up to the first success. *)
Fixpoint leading_failures (events : list connectivity_event) : nat :=
  match events with
  | ConnectFailure :: rest => S (leading_failures rest)
  | _ => 0%nat
  end.

(** The failures since the last success. *)
Definition trailing_failures (events : list connectivity_event) : nat :=
  leading_failures (rev events).

(** The ceiling a configuration sets. *)
Definition failure_ceiling (cfg : ResolvedConfig) : option nat :=
  match cfg !! "MAX_FAILED_CONNECTIONS" with
  | Some (VInt n) => Some (Z.to_nat n)
  | _ => None
  end.

(** The steps at which a run of events raises the signal. *)
Fixpoint signals_from (ceiling failed : nat) (events : list connectivity_event)
  : list bool :=
  match events with
  | [] => []
  | ev :: rest =>
      let '(failed', signal) := on_event ceiling failed ev in
      signal :: signals_from ceiling failed' rest
  end.

(** ** The issues the block can emit *)

Definition wifi_credentials_missing : ValidationIssue :=
  mkIssue SevError REQUIRED_MISSING
    "WiFi credentials must be configured in WIFI_SSID and WIFI_PASSWORD"
    ["WIFI_SSID"; "WIFI_PASSWORD"].

Definition server_url_missing : ValidationIssue :=
  mkIssue SevError REQUIRED_MISSING
    "Server URL must be configured in SERVER_URL" ["SERVER_URL"].

Definition light_sound_conflict : ValidationIssue :=
  mkIssue SevWarning PIN_CONFLICT
    "Light and Sound sensors both use A0 - only one can be enabled"
    ["SENSOR_LIGHT_ENABLED"; "SENSOR_SOUND_ENABLED"].

Definition light_gas_conflict : ValidationIssue :=
  mkIssue SevWarning PIN_CONFLICT
    "Light and Gas sensors both use A0 - only one can be enabled"
    ["SENSOR_LIGHT_ENABLED"; "SENSOR_GAS_ENABLED"].

(** ** Edited headers *)

(** The header is meant to be edited; an edit of a default line is
    written here as the block that redefines the macro. *)

(** Light sensor off, sound and gas sensors on. *)
Definition sound_and_gas : list edit :=
  [ Undef "SENSOR_LIGHT_ENABLED"; Define "SENSOR_LIGHT_ENABLED" (VBool false);
    Undef "SENSOR_SOUND_ENABLED"; Define "SENSOR_SOUND_ENABLED" (VBool true);
    Undef "SENSOR_GAS_ENABLED"; Define "SENSOR_GAS_ENABLED" (VBool true) ].

(** Temperature thresholds the wrong way round. *)
Definition inverted_temperature : list edit :=
  [ Undef "TEMP_THRESHOLD_MIN"; Define "TEMP_THRESHOLD_MIN" (VFloat (40 # 1));
    Undef "TEMP_THRESHOLD_MAX"; Define "TEMP_THRESHOLD_MAX" (VFloat (-10 # 1)) ].

(** Empty device id, device name left out, empty network name. *)
Definition blank_identity : list edit :=
  [ Undef "DEVICE_ID"; Define "DEVICE_ID" (VStr EmptyString);
    Undef "DEVICE_NAME";
    Undef "WIFI_SSID"; Define "WIFI_SSID" (VStr EmptyString) ].

(** The sensors wired to a given pin. *)
Definition sensors_on (cfg : ResolvedConfig) (pin : string) : list string :=
  List.filter (fun flag => existsb (String.eqb pin) (pins_of cfg flag))
    (fst <$> sensor_pins).

(** ** Blocks and switches in general *)

(** Every name the block touches is defined when the block ends. *)
Definition redefines_all (b : list edit) : bool :=
  forallb (fun k => bool_decide (is_Some (overlay_map b !! k))) (block_names b).

(** A preset's block has a line about the name. *)
Definition touches (p : preset) (k : string) : bool :=
  bool_decide (k ∈ block_names (preset_block p)).

(** The last block of the header, among those switched on, with a line
    about the name. *)
Definition override_of (selected : preset -> bool) (k : string) : option preset :=
  List.find (fun p => selected p && touches p k) (rev presets).

(** The names the preset blocks have lines about. *)
Definition preset_fields : list string :=
  flat_map (fun p => block_names (preset_block p)) presets.

(** The lines of the header that are processed for a choice of switches:
    the defaults, then the blocks switched on, in the header's order. *)
Definition header_lines (selected : preset -> bool) : list edit :=
  defaults ++ flat_map (fun p => if selected p then preset_block p else []) presets.

(** No [#define] of the run meets a macro that is defined at that point
    (which a compiler reports as a redefinition), and no [#undef] meets
    one that is not. *)
Fixpoint no_redefinition (b : list edit) (cfg : ResolvedConfig) : bool :=
  match b with
  | [] => true
  | Define k v :: rest =>
      negb (bool_decide (is_Some (cfg !! k))) && no_redefinition rest (<[k := v]> cfg)
  | Undef k :: rest =>
      bool_decide (is_Some (cfg !! k)) && no_redefinition rest (delete k cfg)
  end.

(** ** What the validation block accepts *)


Definition defined (cfg : ResolvedConfig) (k : string) : bool :=
  bool_decide (is_Some (cfg !! k)).


(** The pairs of sensors wired to a common pin, in the order of the
    header's sensor sections. *)
Fixpoint pairs {A} (l : list A) : list (A * A) :=
  match l with
  | [] => []
  | x :: rest => map (pair x) rest ++ pairs rest
  end.

Definition shared_pins (cfg : ResolvedConfig) : list (string * string) :=
  List.filter (fun ab => share_pin cfg (fst ab) (snd ab)) (pairs (fst <$> sensor_pins)).

(** ** Example headers *)

(** The four headers under [examples/], each a complete replacement for
    the contents of [device_config.h]: a run of [#define] lines between
    the include guard's [#ifndef] and [#endif]. *)

(** [examples/environmental_monitor.h]. *)
Definition environmental_monitor_h : list edit :=
  [
    Define "DEVICE_ID" (VStr "ENV_001");
    Define "DEVICE_NAME" (VStr "Environmental Monitor");
    Define "DEVICE_LOCATION" (VStr "Living Room");
    Define "FIRMWARE_VERSION" (VStr "2.1.0");
    Define "WIFI_SSID" (VStr "HOME_NETWORK");
    Define "WIFI_PASSWORD" (VStr "environment_sensor_789");
    Define "SERVER_URL" (VStr "https://your-environmental-platform.com");
    Define "SERVER_API_KEY" (VStr "env_api_key_abc123");
    Define "USE_HTTPS" (VBool true);
    Define "SERVER_FINGERPRINT" (VStr EmptyString);
    Define "HEARTBEAT_INTERVAL_SEC" (VInt 600);
    Define "SENSOR_READ_INTERVAL_MS" (VInt 30000);
    Define "TELEMETRY_BATCH_SIZE" (VInt 10);
    Define "DEVICE_ARMED" (VBool true);
    Define "DEBUG_MODE" (VBool false);
    Define "OTA_ENABLED" (VBool true);
    Define "SENSOR_DHT_ENABLED" (VBool true);
    Define "SENSOR_DHT_PIN" (VIdent "D4");
    Define "SENSOR_DHT_TYPE" (VIdent "DHT22");
    Define "TEMP_THRESHOLD_MIN" (VFloat (16 # 1));
    Define "TEMP_THRESHOLD_MAX" (VFloat (28 # 1));
    Define "HUMIDITY_THRESHOLD_MIN" (VFloat (30 # 1));
    Define "HUMIDITY_THRESHOLD_MAX" (VFloat (70 # 1));
    Define "SENSOR_LIGHT_ENABLED" (VBool true);
    Define "SENSOR_LIGHT_PIN" (VIdent "A0");
    Define "LIGHT_THRESHOLD_MIN" (VInt 30);
    Define "LIGHT_THRESHOLD_MAX" (VInt 950);
    Define "LIGHT_CALIBRATION_OFFSET" (VFloat (0 # 1));
    Define "LIGHT_CALIBRATION_MULTIPLIER" (VFloat (1 # 1));
    Define "SENSOR_MOTION_ENABLED" (VBool false);
    Define "SENSOR_MOTION_PIN" (VIdent "D2");
    Define "MOTION_THRESHOLD_MIN" (VInt 0);
    Define "MOTION_THRESHOLD_MAX" (VInt 1);
    Define "MOTION_DETECTION_TIMEOUT_MS" (VInt 300000);
    Define "SENSOR_DISTANCE_ENABLED" (VBool false);
    Define "SENSOR_DISTANCE_TRIGGER_PIN" (VIdent "D5");
    Define "SENSOR_DISTANCE_ECHO_PIN" (VIdent "D6");
    Define "DISTANCE_THRESHOLD_MIN" (VFloat (5 # 1));
    Define "DISTANCE_THRESHOLD_MAX" (VFloat (200 # 1));
    Define "SENSOR_SOUND_ENABLED" (VBool false);
    Define "SENSOR_SOUND_PIN" (VIdent "A0");
    Define "SOUND_THRESHOLD_MIN" (VInt 200);
    Define "SOUND_THRESHOLD_MAX" (VInt 700);
    Define "SENSOR_MAGNETIC_ENABLED" (VBool false);
    Define "SENSOR_MAGNETIC_PIN" (VIdent "D3");
    Define "MAGNETIC_THRESHOLD_MIN" (VInt 0);
    Define "MAGNETIC_THRESHOLD_MAX" (VInt 1);
    Define "SENSOR_VIBRATION_ENABLED" (VBool false);
    Define "SENSOR_VIBRATION_PIN" (VIdent "D7");
    Define "VIBRATION_THRESHOLD_MIN" (VInt 0);
    Define "VIBRATION_THRESHOLD_MAX" (VInt 1);
    Define "SENSOR_GAS_ENABLED" (VBool false);
    Define "SENSOR_GAS_PIN" (VIdent "A0");
    Define "GAS_THRESHOLD_MIN" (VInt 100);
    Define "GAS_THRESHOLD_MAX" (VInt 400);
    Define "AIR_QUALITY_MONITORING" (VBool true);
    Define "COMFORT_ZONE_ALERTING" (VBool true);
    Define "TREND_ANALYSIS" (VBool true);
    Define "SEASONAL_ADJUSTMENT" (VBool true) ].

(** [examples/greenhouse_monitor.h]. *)
Definition greenhouse_monitor_h : list edit :=
  [
    Define "DEVICE_ID" (VStr "GREENHOUSE_001");
    Define "DEVICE_NAME" (VStr "Greenhouse Monitor");
    Define "DEVICE_LOCATION" (VStr "Backyard Greenhouse");
    Define "FIRMWARE_VERSION" (VStr "2.1.0");
    Define "WIFI_SSID" (VStr "GARDEN_WIFI");
    Define "WIFI_PASSWORD" (VStr "greenhouse_monitor_2024");
    Define "SERVER_URL" (VStr "https://your-garden-platform.com");
    Define "SERVER_API_KEY" (VStr "garden_api_key_def456");
    Define "USE_HTTPS" (VBool true);
    Define "SERVER_FINGERPRINT" (VStr EmptyString);
    Define "HEARTBEAT_INTERVAL_SEC" (VInt 300);
    Define "SENSOR_READ_INTERVAL_MS" (VInt 15000);
    Define "TELEMETRY_BATCH_SIZE" (VInt 4);
    Define "DEVICE_ARMED" (VBool true);
    Define "DEBUG_MODE" (VBool false);
    Define "OTA_ENABLED" (VBool true);
    Define "SENSOR_DHT_ENABLED" (VBool true);
    Define "SENSOR_DHT_PIN" (VIdent "D4");
    Define "SENSOR_DHT_TYPE" (VIdent "DHT22");
    Define "TEMP_THRESHOLD_MIN" (VFloat (12 # 1));
    Define "TEMP_THRESHOLD_MAX" (VFloat (35 # 1));
    Define "HUMIDITY_THRESHOLD_MIN" (VFloat (40 # 1));
    Define "HUMIDITY_THRESHOLD_MAX" (VFloat (95 # 1));
    Define "SENSOR_LIGHT_ENABLED" (VBool true);
    Define "SENSOR_LIGHT_PIN" (VIdent "A0");
    Define "LIGHT_THRESHOLD_MIN" (VInt 100);
    Define "LIGHT_THRESHOLD_MAX" (VInt 900);
    Define "LIGHT_CALIBRATION_OFFSET" (VFloat (0 # 1));
    Define "LIGHT_CALIBRATION_MULTIPLIER" (VFloat (1 # 1));
    Define "SENSOR_MOTION_ENABLED" (VBool true);
    Define "SENSOR_MOTION_PIN" (VIdent "D2");
    Define "MOTION_THRESHOLD_MIN" (VInt 0);
    Define "MOTION_THRESHOLD_MAX" (VInt 1);
    Define "MOTION_DETECTION_TIMEOUT_MS" (VInt 120000);
    Define "SENSOR_DISTANCE_ENABLED" (VBool true);
    Define "SENSOR_DISTANCE_TRIGGER_PIN" (VIdent "D5");
    Define "SENSOR_DISTANCE_ECHO_PIN" (VIdent "D6");
    Define "DISTANCE_THRESHOLD_MIN" (VFloat (5 # 1));
    Define "DISTANCE_THRESHOLD_MAX" (VFloat (50 # 1));
    Define "SENSOR_SOUND_ENABLED" (VBool false);
    Define "SENSOR_SOUND_PIN" (VIdent "A0");
    Define "SOUND_THRESHOLD_MIN" (VInt 100);
    Define "SOUND_THRESHOLD_MAX" (VInt 800);
    Define "SENSOR_MAGNETIC_ENABLED" (VBool true);
    Define "SENSOR_MAGNETIC_PIN" (VIdent "D3");
    Define "MAGNETIC_THRESHOLD_MIN" (VInt 0);
    Define "MAGNETIC_THRESHOLD_MAX" (VInt 1);
    Define "SENSOR_VIBRATION_ENABLED" (VBool true);
    Define "SENSOR_VIBRATION_PIN" (VIdent "D7");
    Define "VIBRATION_THRESHOLD_MIN" (VInt 0);
    Define "VIBRATION_THRESHOLD_MAX" (VInt 1);
    Define "SENSOR_GAS_ENABLED" (VBool false);
    Define "SENSOR_GAS_PIN" (VIdent "A0");
    Define "GAS_THRESHOLD_MIN" (VInt 300);
    Define "GAS_THRESHOLD_MAX" (VInt 1500);
    Define "PLANT_CARE_MODE" (VBool true);
    Define "IRRIGATION_CONTROL_PIN" (VIdent "D8");
    Define "FAN_CONTROL_PIN" (VIdent "D1");
    Define "HEATER_CONTROL_PIN" (VIdent "D0");
    Define "GROW_LIGHT_CONTROL_PIN" (VIdent "D3");
    Define "SOIL_MOISTURE_MONITORING" (VBool false);
    Define "SEEDLING_TEMP_MIN" (VFloat (18 # 1));
    Define "SEEDLING_TEMP_MAX" (VFloat (24 # 1));
    Define "FLOWERING_TEMP_MIN" (VFloat (16 # 1));
    Define "FLOWERING_TEMP_MAX" (VFloat (22 # 1)) ].

(** [examples/kitchen_monitor.h]. *)
Definition kitchen_monitor_h : list edit :=
  [
    Define "DEVICE_ID" (VStr "KITCHEN_001");
    Define "DEVICE_NAME" (VStr "Kitchen Monitor");
    Define "DEVICE_LOCATION" (VStr "Kitchen");
    Define "FIRMWARE_VERSION" (VStr "2.1.0");
    Define "WIFI_SSID" (VStr "YOUR_HOME_WIFI");
    Define "WIFI_PASSWORD" (VStr "your_wifi_password_123");
    Define "SERVER_URL" (VStr "https://your-iot-platform.herokuapp.com");
    Define "SERVER_API_KEY" (VStr EmptyString);
    Define "USE_HTTPS" (VBool true);
    Define "SERVER_FINGERPRINT" (VStr EmptyString);
    Define "HEARTBEAT_INTERVAL_SEC" (VInt 300);
    Define "SENSOR_READ_INTERVAL_MS" (VInt 10000);
    Define "TELEMETRY_BATCH_SIZE" (VInt 3);
    Define "DEVICE_ARMED" (VBool true);
    Define "DEBUG_MODE" (VBool false);
    Define "OTA_ENABLED" (VBool true);
    Define "SENSOR_DHT_ENABLED" (VBool true);
    Define "SENSOR_DHT_PIN" (VIdent "D4");
    Define "SENSOR_DHT_TYPE" (VIdent "DHT22");
    Define "TEMP_THRESHOLD_MIN" (VFloat (10 # 1));
    Define "TEMP_THRESHOLD_MAX" (VFloat (40 # 1));
    Define "HUMIDITY_THRESHOLD_MIN" (VFloat (30 # 1));
    Define "HUMIDITY_THRESHOLD_MAX" (VFloat (90 # 1));
    Define "SENSOR_LIGHT_ENABLED" (VBool true);
    Define "SENSOR_LIGHT_PIN" (VIdent "A0");
    Define "LIGHT_THRESHOLD_MIN" (VInt 50);
    Define "LIGHT_THRESHOLD_MAX" (VInt 950);
    Define "LIGHT_CALIBRATION_OFFSET" (VFloat (0 # 1));
    Define "LIGHT_CALIBRATION_MULTIPLIER" (VFloat (1 # 1));
    Define "SENSOR_MOTION_ENABLED" (VBool true);
    Define "SENSOR_MOTION_PIN" (VIdent "D2");
    Define "MOTION_THRESHOLD_MIN" (VInt 0);
    Define "MOTION_THRESHOLD_MAX" (VInt 1);
    Define "MOTION_DETECTION_TIMEOUT_MS" (VInt 60000);
    Define "SENSOR_GAS_ENABLED" (VBool true);
    Define "SENSOR_GAS_PIN" (VIdent "A0");
    Define "GAS_THRESHOLD_MIN" (VInt 100);
    Define "GAS_THRESHOLD_MAX" (VInt 500);
    Define "SENSOR_DISTANCE_ENABLED" (VBool false);
    Define "SENSOR_DISTANCE_TRIGGER_PIN" (VIdent "D5");
    Define "SENSOR_DISTANCE_ECHO_PIN" (VIdent "D6");
    Define "DISTANCE_THRESHOLD_MIN" (VFloat (5 # 1));
    Define "DISTANCE_THRESHOLD_MAX" (VFloat (200 # 1));
    Define "SENSOR_SOUND_ENABLED" (VBool false);
    Define "SENSOR_SOUND_PIN" (VIdent "A0");
    Define "SOUND_THRESHOLD_MIN" (VInt 100);
    Define "SOUND_THRESHOLD_MAX" (VInt 800);
    Define "SENSOR_MAGNETIC_ENABLED" (VBool true);
    Define "SENSOR_MAGNETIC_PIN" (VIdent "D3");
    Define "MAGNETIC_THRESHOLD_MIN" (VInt 0);
    Define "MAGNETIC_THRESHOLD_MAX" (VInt 1);
    Define "SENSOR_VIBRATION_ENABLED" (VBool false);
    Define "SENSOR_VIBRATION_PIN" (VIdent "D7");
    Define "VIBRATION_THRESHOLD_MIN" (VInt 0);
    Define "VIBRATION_THRESHOLD_MAX" (VInt 1) ].

(** [examples/security_node.h]. *)
Definition security_node_h : list edit :=
  [
    Define "DEVICE_ID" (VStr "SECURITY_001");
    Define "DEVICE_NAME" (VStr "Security Monitor");
    Define "DEVICE_LOCATION" (VStr "Front Door");
    Define "FIRMWARE_VERSION" (VStr "2.1.0");
    Define "WIFI_SSID" (VStr "YOUR_SECURITY_WIFI");
    Define "WIFI_PASSWORD" (VStr "secure_password_456");
    Define "SERVER_URL" (VStr "https://your-security-platform.com");
    Define "SERVER_API_KEY" (VStr "sec_api_key_xyz789");
    Define "USE_HTTPS" (VBool true);
    Define "SERVER_FINGERPRINT" (VStr EmptyString);
    Define "HEARTBEAT_INTERVAL_SEC" (VInt 60);
    Define "SENSOR_READ_INTERVAL_MS" (VInt 2000);
    Define "TELEMETRY_BATCH_SIZE" (VInt 1);
    Define "DEVICE_ARMED" (VBool true);
    Define "DEBUG_MODE" (VBool false);
    Define "OTA_ENABLED" (VBool true);
    Define "SENSOR_DHT_ENABLED" (VBool true);
    Define "SENSOR_DHT_PIN" (VIdent "D4");
    Define "SENSOR_DHT_TYPE" (VIdent "DHT22");
    Define "TEMP_THRESHOLD_MIN" (VFloat (-5 # 1));
    Define "TEMP_THRESHOLD_MAX" (VFloat (45 # 1));
    Define "HUMIDITY_THRESHOLD_MIN" (VFloat (10 # 1));
    Define "HUMIDITY_THRESHOLD_MAX" (VFloat (95 # 1));
    Define "SENSOR_LIGHT_ENABLED" (VBool true);
    Define "SENSOR_LIGHT_PIN" (VIdent "A0");
    Define "LIGHT_THRESHOLD_MIN" (VInt 20);
    Define "LIGHT_THRESHOLD_MAX" (VInt 980);
    Define "LIGHT_CALIBRATION_OFFSET" (VFloat (0 # 1));
    Define "LIGHT_CALIBRATION_MULTIPLIER" (VFloat (1 # 1));
    Define "SENSOR_MOTION_ENABLED" (VBool true);
    Define "SENSOR_MOTION_PIN" (VIdent "D2");
    Define "MOTION_THRESHOLD_MIN" (VInt 0);
    Define "MOTION_THRESHOLD_MAX" (VInt 1);
    Define "MOTION_DETECTION_TIMEOUT_MS" (VInt 10000);
    Define "SENSOR_DISTANCE_ENABLED" (VBool true);
    Define "SENSOR_DISTANCE_TRIGGER_PIN" (VIdent "D5");
    Define "SENSOR_DISTANCE_ECHO_PIN" (VIdent "D6");
    Define "DISTANCE_THRESHOLD_MIN" (VFloat (10 # 1));
    Define "DISTANCE_THRESHOLD_MAX" (VFloat (100 # 1));
    Define "SENSOR_SOUND_ENABLED" (VBool false);
    Define "SENSOR_SOUND_PIN" (VIdent "A0");
    Define "SOUND_THRESHOLD_MIN" (VInt 100);
    Define "SOUND_THRESHOLD_MAX" (VInt 900);
    Define "SENSOR_MAGNETIC_ENABLED" (VBool true);
    Define "SENSOR_MAGNETIC_PIN" (VIdent "D3");
    Define "MAGNETIC_THRESHOLD_MIN" (VInt 0);
    Define "MAGNETIC_THRESHOLD_MAX" (VInt 1);
    Define "SENSOR_VIBRATION_ENABLED" (VBool true);
    Define "SENSOR_VIBRATION_PIN" (VIdent "D7");
    Define "VIBRATION_THRESHOLD_MIN" (VInt 0);
    Define "VIBRATION_THRESHOLD_MAX" (VInt 1);
    Define "SENSOR_GAS_ENABLED" (VBool false);
    Define "SENSOR_GAS_PIN" (VIdent "A0");
    Define "GAS_THRESHOLD_MIN" (VInt 100);
    Define "GAS_THRESHOLD_MAX" (VInt 600);
    Define "SECURITY_MODE" (VBool true);
    Define "INTRUSION_COOLDOWN_MS" (VInt 60000);
    Define "TAMPER_DETECTION" (VBool true);
    Define "SILENT_ALARM_PIN" (VIdent "D8") ].

Definition example_headers : list (list edit) :=
  [environmental_monitor_h; greenhouse_monitor_h; kitchen_monitor_h; security_node_h].

(** The macro table a header leaves when it is processed on its own. *)
Definition header_table (h : list edit) : ResolvedConfig := apply_block h ∅.

(** The macros of [device_config.h] that no example header defines: the
    WiFi connection settings and everything from the advanced settings
    on. *)
Definition left_out_by_examples : list string :=
  [ "WIFI_CONNECT_TIMEOUT_SEC"; "WIFI_RECONNECT_ATTEMPTS"; "WIFI_RECONNECT_DELAY_MS";
    "WATCHDOG_TIMEOUT_MS"; "CONFIG_EEPROM_ADDR"; "CONFIG_MAGIC_NUMBER";
    "MAX_FAILED_CONNECTIONS"; "USE_JSON_COMPRESSION"; "MAX_RETRY_ATTEMPTS";
    "HTTP_REQUEST_TIMEOUT_MS"; "DEEP_SLEEP_ENABLED"; "DEEP_SLEEP_DURATION_SEC";
    "BATTERY_MONITORING_ENABLED"; "LOW_BATTERY_THRESHOLD_V" ].

(** * Properties *)

(** ** Processing a block *)

Lemma apply_block_snoc b e cfg :
  apply_block (b ++ [e]) cfg = apply_edit (apply_block b cfg) e.
Proof. unfold apply_block. by rewrite fold_left_app. Qed.

Lemma apply_edit_lookup_ne cfg e k :
  edit_name e ≠ k → apply_edit cfg e !! k = cfg !! k.
Proof.
  destruct e as [k' v|k']; simpl; intros Hne.
  - by rewrite lookup_insert_ne.
  - by rewrite lookup_delete_ne.
Qed.

Lemma apply_edit_lookup_eq cfg cfg' e :
  apply_edit cfg e !! edit_name e = apply_edit cfg' e !! edit_name e.
Proof.
  destruct e as [k v|k]; simpl.
  - by rewrite !lookup_insert_eq.
  - by rewrite !lookup_delete_eq.
Qed.

(** A name the block does not touch keeps its entry. *)
Lemma apply_block_untouched b cfg k :
  k ∉ block_names b → apply_block b cfg !! k = cfg !! k.
Proof.
  revert cfg. induction b as [|e b IH]; intros cfg Hk; [done|].
  unfold block_names in Hk. rewrite fmap_cons, not_elem_of_cons in Hk.
  destruct Hk as [Hne Hk]. simpl.
  change (fold_left apply_edit b (apply_edit cfg e)) with (apply_block b (apply_edit cfg e)).
  rewrite IH by done. by apply apply_edit_lookup_ne.
Qed.

(** The entry of a name the block touches is decided by the block alone,
    whatever table it is processed on. *)
Lemma apply_block_touched b cfg cfg' k :
  k ∈ block_names b → apply_block b cfg !! k = apply_block b cfg' !! k.
Proof.
  induction b as [|e b IH] using rev_ind; intros Hk.
  - by apply elem_of_nil in Hk.
  - rewrite !apply_block_snoc.
    destruct (decide (edit_name e = k)) as [<-|Hne].
    + apply apply_edit_lookup_eq.
    + rewrite !apply_edit_lookup_ne by done.
      apply IH. unfold block_names in Hk.
      rewrite fmap_app, elem_of_app in Hk. destruct Hk as [Hk|Hk]; [done|].
      simpl in Hk. apply list_elem_of_singleton in Hk. congruence.
Qed.

Lemma overlay_map_names b k v :
  overlay_map b !! k = Some v → k ∈ block_names b.
Proof.
  intros Hk. destruct (decide (k ∈ block_names b)) as [|Hn]; [done|].
  unfold overlay_map in Hk. rewrite apply_block_untouched in Hk by done.
  by rewrite lookup_empty in Hk.
Qed.

Lemma resolve_overlay_lookup reg b k v :
  overlay_map b !! k = Some v → resolve reg (Some b) !! k = Some v.
Proof.
  intros Hk. simpl. rewrite <- Hk. unfold overlay_map.
  apply apply_block_touched. by eapply overlay_map_names.
Qed.

(** One switch defined: the header resolves the registry with that block. *)
Lemma device_config_h_select choice :
  device_config_h (select choice) = resolve registry (preset_block <$> choice).
Proof. by destruct choice as [[]|]. Qed.

(** C1: a key the overlay gives a value to resolves to that value, and so
    never to a registry default that differs from it; the security preset
    turns the default heartbeat interval of 300 into 60. *)
Theorem override_precedence :
  (∀ (reg : ResolvedConfig) (b : list edit) (k : string) (v : value),
      overlay_map b !! k = Some v →
      resolve reg (Some b) !! k = Some v
      ∧ ∀ d, reg !! k = Some d → d ≠ v → resolve reg (Some b) !! k ≠ Some d)
  ∧ registry !! "HEARTBEAT_INTERVAL_SEC" = Some (VInt 300)
  ∧ overlay_map (preset_block PRESET_SECURITY) !! "HEARTBEAT_INTERVAL_SEC"
    = Some (VInt 60)
  ∧ resolve registry (Some (preset_block PRESET_SECURITY)) !! "HEARTBEAT_INTERVAL_SEC"
    = Some (VInt 60)
  ∧ device_config_h (only PRESET_SECURITY) !! "HEARTBEAT_INTERVAL_SEC"
    = Some (VInt 60).
Proof.
  split; [|repeat split; by vm_compute].
  intros reg b k v Hk. pose proof (resolve_overlay_lookup reg b k v Hk) as Hr.
  split; [done|]. intros d _ Hne. rewrite Hr. congruence.
Qed.

Lemma override_precedence_witness :
  resolve registry (Some (preset_block PRESET_KITCHEN)) !! "TEMP_THRESHOLD_MAX"
  = Some (VFloat (35 # 1)).
Proof.
  apply (proj1 override_precedence registry (preset_block PRESET_KITCHEN)
           "TEMP_THRESHOLD_MAX" (VFloat (35 # 1))).
  vm_compute. reflexivity.
Defined.

(** ** Coverage *)

Lemma keys_dom (cfg : ResolvedConfig) k : k ∈ keys cfg ↔ k ∈ dom cfg.
Proof.
  unfold keys. rewrite elem_of_dom, list_elem_of_fmap. split.
  - intros [[k' v] [-> Hkv]]. apply elem_of_map_to_list in Hkv. by exists v.
  - intros [v Hv]. exists (k, v). split; [done|]. by apply elem_of_map_to_list.
Qed.

Lemma keys_NoDup (cfg : ResolvedConfig) : NoDup (keys cfg).
Proof. apply NoDup_fst_map_to_list. Qed.

Lemma keys_same_dom (cfg cfg' : ResolvedConfig) :
  dom cfg = dom cfg' → keys cfg ≡ₚ keys cfg'.
Proof.
  intros Hdom. apply NoDup_Permutation; [apply keys_NoDup..|].
  intros k. by rewrite !keys_dom, Hdom.
Qed.

Lemma overlay_of_spec reg b k :
  overlay_of reg b = true → k ∈ block_names b →
  is_Some (reg !! k) ∧ is_Some (overlay_map b !! k).
Proof.
  unfold overlay_of. rewrite forallb_forall. intros Hall Hk.
  apply list_elem_of_In, Hall, andb_prop in Hk as [H1 H2].
  apply bool_decide_eq_true in H1, H2. done.
Qed.

(** Being an overlay of a registry only depends on which fields the
    registry has. *)
Lemma overlay_of_same_dom reg reg' b :
  dom reg = dom reg' → overlay_of reg b = overlay_of reg' b.
Proof.
  intros Hdom. unfold overlay_of.
  induction (block_names b) as [|k ks IH]; simpl; [done|].
  rewrite IH. do 2 f_equal.
  apply bool_decide_ext. by rewrite <- !elem_of_dom, Hdom.
Qed.

(** An overlay neither adds nor removes a field. *)
Lemma apply_overlay_dom reg b :
  overlay_of reg b = true → dom (apply_block b reg) = dom reg.
Proof.
  intros Hov. apply set_eq. intros k. rewrite !elem_of_dom.
  destruct (decide (k ∈ block_names b)) as [Hk|Hk].
  - destruct (overlay_of_spec reg b k Hov Hk) as [Hreg Hb].
    rewrite (apply_block_touched b reg ∅ k Hk). by split.
  - by rewrite apply_block_untouched.
Qed.

Lemma preset_block_overlay p : overlay_of registry (preset_block p) = true.
Proof. destruct p; vm_compute; reflexivity. Qed.

Lemma ifdef_dom selected cfg p :
  dom cfg = dom registry → dom (ifdef selected cfg p) = dom registry.
Proof.
  intros Hdom. unfold ifdef. destruct (selected p); [|done].
  rewrite apply_overlay_dom; [done|].
  rewrite (overlay_of_same_dom cfg registry) by done. apply preset_block_overlay.
Qed.

Lemma device_config_h_dom selected :
  dom (device_config_h selected) = dom registry.
Proof.
  unfold device_config_h, presets. cbn [fold_left].
  do 3 apply ifdef_dom. reflexivity.
Qed.

(** C7: resolving a registry with an overlay, or with none, yields a
    configuration whose fields are exactly the registry's, each once and
    each with a value; this holds for every choice of preset switches of
    the header, whose registry has 69 fields. *)
Theorem total_coverage :
  (∀ (reg : ResolvedConfig) (overlay : option (list edit)),
      from_option (overlay_of reg) true overlay = true →
      dom (resolve reg overlay) = dom reg
      ∧ NoDup (keys (resolve reg overlay))
      ∧ keys (resolve reg overlay) ≡ₚ keys reg
      ∧ ∀ k, k ∈ keys reg → ∃ v, resolve reg overlay !! k = Some v)
  ∧ (∀ p : preset, overlay_of registry (preset_block p) = true)
  ∧ (∀ selected : preset → bool,
      NoDup (keys (device_config_h selected))
      ∧ keys (device_config_h selected) ≡ₚ keys registry)
  ∧ length (keys registry) = 69%nat.
Proof.
  split; [|split; [|split]].
  - intros reg overlay Hov.
    assert (dom (resolve reg overlay) = dom reg) as Hdom.
    { destruct overlay as [b|]; [|done]. by apply apply_overlay_dom. }
    split; [done|]. split; [apply keys_NoDup|]. split; [by apply keys_same_dom|].
    intros k Hk. apply keys_dom in Hk. rewrite <- Hdom in Hk.
    by apply elem_of_dom in Hk.
  - apply preset_block_overlay.
  - intros selected. split; [apply keys_NoDup|].
    apply keys_same_dom, device_config_h_dom.
  - vm_compute. reflexivity.
Qed.

Lemma total_coverage_witness :
  keys (resolve registry (Some (preset_block PRESET_SECURITY))) ≡ₚ keys registry.
Proof.
  apply (proj1 total_coverage registry (Some (preset_block PRESET_SECURITY))).
  vm_compute. reflexivity.
Defined.

(** ** Validation *)

Lemma validate_app cfg :
  validate cfg
  = flat_map (run_check cfg) presence_checks ++ flat_map (run_check cfg) pin_checks.
Proof. unfold validate, validation_block. apply flat_map_app. Qed.

(** With fuel for every name of the table, expansion does not run out:
    more fuel changes nothing. *)
Lemma rescan_enough f1 : ∀ f2 cfg v,
  (size cfg ≤ f1)%nat → (size cfg ≤ f2)%nat → rescan f1 cfg v = rescan f2 cfg v.
Proof.
  induction f1 as [|f1 IH]; intros f2 cfg v H1 H2.
  - assert (cfg = ∅) as -> by (apply map_size_empty_inv; lia).
    destruct f2; simpl; [done|]. destruct (token_name v); [|done].
    by rewrite lookup_empty.
  - destruct f2 as [|f2].
    + assert (cfg = ∅) as -> by (apply map_size_empty_inv; lia).
      simpl. destruct (token_name v); [|done]. by rewrite lookup_empty.
    + simpl. destruct (token_name v) as [x|]; [|done].
      destruct (cfg !! x) as [body|] eqn:Hx; [|done].
      assert (size (delete x cfg) = pred (size cfg)) as Hsize
        by (apply map_size_delete_Some; eauto).
      assert (size cfg ≠ 0%nat)
        by (intros ->%map_size_empty_inv; by rewrite lookup_empty in Hx).
      apply IH; lia.
Qed.

Lemma reads_enough f1 : ∀ f2 cfg v,
  (size cfg ≤ f1)%nat → (size cfg ≤ f2)%nat → reads f1 cfg v = reads f2 cfg v.
Proof.
  induction f1 as [|f1 IH]; intros f2 cfg v H1 H2.
  - assert (cfg = ∅) as -> by (apply map_size_empty_inv; lia).
    destruct f2; simpl; [done|]. destruct (token_name v); [|done].
    by rewrite lookup_empty.
  - destruct f2 as [|f2].
    + assert (cfg = ∅) as -> by (apply map_size_empty_inv; lia).
      simpl. destruct (token_name v); [|done]. by rewrite lookup_empty.
    + simpl. destruct (token_name v) as [x|]; [|done].
      destruct (cfg !! x) as [body|] eqn:Hx; [|done].
      assert (size (delete x cfg) = pred (size cfg)) as Hsize
        by (apply map_size_delete_Some; eauto).
      assert (size cfg ≠ 0%nat)
        by (intros ->%map_size_empty_inv; by rewrite lookup_empty in Hx).
      f_equal. apply IH; lia.
Qed.

(** Expansion only depends on the names it looks up. *)
Lemma rescan_ext fuel : ∀ cfg cfg' v,
  (∀ x, x ∈ reads fuel cfg v → cfg !! x = cfg' !! x) →
  rescan fuel cfg v = rescan fuel cfg' v.
Proof.
  induction fuel as [|fuel IH]; intros cfg cfg' v Hsame; [done|].
  simpl in *. destruct (token_name v) as [x|]; [|done].
  rewrite <- (Hsame x) by apply list_elem_of_here.
  destruct (cfg !! x) as [body|]; [|done].
  apply IH. intros y Hy. destruct (decide (y = x)) as [->|Hne].
  - by rewrite !lookup_delete_eq.
  - rewrite !lookup_delete_ne by done. apply Hsame. by apply list_elem_of_further.
Qed.

Lemma expand_ext cfg cfg' v :
  (∀ x, x ∈ reads (size cfg) cfg v → cfg !! x = cfg' !! x) →
  expand cfg v = expand cfg' v.
Proof.
  intros Hsame. unfold expand.
  set (f := (size cfg `max` size cfg')%nat).
  rewrite (rescan_enough (size cfg) f cfg v) by lia.
  rewrite (rescan_enough (size cfg') f cfg' v) by lia.
  apply rescan_ext. intros x Hx. apply Hsame.
  by rewrite (reads_enough (size cfg) f cfg v) by lia.
Qed.

Lemma eval_cond_ext cfg cfg' c :
  (∀ k, k ∈ cond_reads cfg c → cfg !! k = cfg' !! k) →
  eval_cond cfg c = eval_cond cfg' c.
Proof.
  induction c as [k|k|c IH|a IHa b IHb|a IHa b IHb]; cbn [eval_cond cond_reads];
    intros Hsame.
  - by rewrite (Hsame k) by apply list_elem_of_here.
  - by rewrite (expand_ext cfg cfg').
  - by rewrite IH.
  - rewrite IHa, IHb; [done|intros k Hk; apply Hsame, elem_of_app; auto..].
  - rewrite IHa, IHb; [done|intros k Hk; apply Hsame, elem_of_app; auto..].
Qed.

Lemma run_check_ext cfg cfg' d :
  (∀ k, k ∈ cond_reads cfg (check_cond d) → cfg !! k = cfg' !! k) →
  run_check cfg d = run_check cfg' d.
Proof.
  intros Hsame. destruct d as [c msg|c msg]; cbn [run_check check_cond] in *;
    by rewrite (eval_cond_ext cfg cfg' c).
Qed.

(** The issues only depend on the macros the block looks up. *)
Lemma validate_ext cfg cfg' :
  (∀ k, k ∈ dependencies cfg → cfg !! k = cfg' !! k) →
  validate cfg = validate cfg'.
Proof.
  unfold validate, dependencies.
  induction validation_block as [|d ds IH]; cbn [flat_map]; intros Hsame; [done|].
  rewrite IH by (intros k Hk; apply Hsame, elem_of_app; auto).
  f_equal. apply run_check_ext. intros k Hk. apply Hsame, elem_of_app; auto.
Qed.

Lemma validate_insert cfg k v :
  k ∉ dependencies cfg → validate (<[k := v]> cfg) = validate cfg.
Proof.
  intros Hk. symmetry. apply validate_ext. intros k' Hk'.
  symmetry. apply lookup_insert_ne. congruence.
Qed.

Lemma validate_delete cfg k :
  k ∉ dependencies cfg → validate (delete k cfg) = validate cfg.
Proof.
  intros Hk. symmetry. apply validate_ext. intros k' Hk'.
  symmetry. apply lookup_delete_ne. congruence.
Qed.

Lemma run_check_codes cfg d :
  Forall (fun i => issue_code_of i ≠ THRESHOLD_INVERTED) (run_check cfg d).
Proof.
  destruct d as [c msg|c msg]; simpl;
    destruct (eval_cond cfg c) as [[]|]; repeat constructor; simpl; congruence.
Qed.

Lemma has_code_spec c i : has_code c i = true ↔ issue_code_of i = c.
Proof. unfold has_code. destruct c, (issue_code_of i); split; congruence. Qed.

Lemma filter_none {A} (f : A → bool) (P : A → Prop) l :
  (∀ x, f x = true → ¬ P x) → Forall P l → List.filter f l = [].
Proof.
  intros Hf. induction 1 as [|x l Hx _ IH]; simpl; [done|].
  destruct (f x) eqn:Hfx; [|done]. by destruct (Hf x Hfx).
Qed.

Lemma validate_no_threshold_issue cfg :
  List.filter (has_code THRESHOLD_INVERTED) (validate cfg) = [].
Proof.
  apply (filter_none _ (fun i => issue_code_of i ≠ THRESHOLD_INVERTED)).
  - intros i Hi Hne. by apply has_code_spec in Hi.
  - unfold validate. induction validation_block as [|d ds IH]; simpl; [done|].
    apply Forall_app. split; [apply run_check_codes|done].
Qed.

(** A configuration is activatable when every issue is a warning. *)
Lemma activatable_spec cfg :
  activatable cfg = true ↔ Forall (fun i => is_error i = false) (validate cfg).
Proof.
  unfold activatable, errors.
  induction (validate cfg) as [|i l IH]; simpl.
  - split; [constructor|done].
  - destruct (is_error i) eqn:Hi; simpl.
    + split; [done|]. intros Hall. apply Forall_cons_1 in Hall as [Hi' _]. congruence.
    + rewrite IH. split; [by constructor|]. by intros [_ ?]%Forall_cons_1.
Qed.

Lemma warning_check_codes cfg c msg :
  Forall (fun i => issue_code_of i = PIN_CONFLICT ∨ issue_code_of i = BAD_EXPRESSION)
    (run_check cfg (WarningIf c msg)).
Proof.
  simpl. destruct (eval_cond cfg c) as [[]|].
  - apply Forall_cons; [by left|constructor].
  - constructor.
  - apply Forall_cons; [by right|constructor].
Qed.

(** The pin checks never report a missing field. *)
Lemma pin_checks_codes cfg :
  Forall (fun i => issue_code_of i = PIN_CONFLICT ∨ issue_code_of i = BAD_EXPRESSION)
    (flat_map (run_check cfg) pin_checks).
Proof.
  unfold pin_checks. cbn [flat_map].
  repeat (apply Forall_app; split); try apply warning_check_codes. constructor.
Qed.

Lemma presence_issues cfg :
  flat_map (run_check cfg) presence_checks
  = (if bool_decide (is_Some (cfg !! "WIFI_SSID"))
        && bool_decide (is_Some (cfg !! "WIFI_PASSWORD"))
     then [] else [wifi_credentials_missing])
    ++ (if bool_decide (is_Some (cfg !! "SERVER_URL"))
        then [] else [server_url_missing]).
Proof.
  unfold presence_checks. cbn [flat_map run_check eval_cond fmap option_fmap option_map].
  rewrite app_nil_r.
  by destruct (bool_decide (is_Some (cfg !! "WIFI_SSID"))),
    (bool_decide (is_Some (cfg !! "WIFI_PASSWORD"))),
    (bool_decide (is_Some (cfg !! "SERVER_URL"))).
Qed.

Lemma required_missing_from_presence cfg i :
  issue_code_of i = REQUIRED_MISSING →
  i ∈ validate cfg ↔ i ∈ flat_map (run_check cfg) presence_checks.
Proof.
  intros Hcode. rewrite validate_app, elem_of_app. split; [|by left].
  intros [Hi|Hi]; [done|].
  pose proof (pin_checks_codes cfg) as Hpin. rewrite List.Forall_forall in Hpin.
  apply list_elem_of_In in Hi. destruct (Hpin i Hi); congruence.
Qed.

Lemma is_Some_lookup_false (cfg : ResolvedConfig) k :
  bool_decide (is_Some (cfg !! k)) = false ↔ cfg !! k = None.
Proof. rewrite bool_decide_eq_false. symmetry. apply eq_None_not_Some. Qed.

Lemma elem_of_unless {A} (b : bool) (x y : A) :
  y ∈ (if b then [] else [x]) ↔ b = false ∧ y = x.
Proof.
  destruct b.
  - rewrite elem_of_nil. by split; [|intros [? _]].
  - rewrite list_elem_of_singleton. by split; [|intros [_ ?]].
Qed.

Lemma wifi_missing_iff cfg :
  wifi_credentials_missing ∈ validate cfg
  ↔ cfg !! "WIFI_SSID" = None ∨ cfg !! "WIFI_PASSWORD" = None.
Proof.
  rewrite required_missing_from_presence, presence_issues by done.
  rewrite elem_of_app, !elem_of_unless, andb_false_iff, !is_Some_lookup_false.
  split.
  - intros [[H _]|[_ H]]; [done|discriminate H].
  - intros H. by left.
Qed.

Lemma server_missing_iff cfg :
  server_url_missing ∈ validate cfg ↔ cfg !! "SERVER_URL" = None.
Proof.
  rewrite required_missing_from_presence, presence_issues by done.
  rewrite elem_of_app, !elem_of_unless, is_Some_lookup_false.
  split.
  - intros [[_ H]|[H _]]; [discriminate H|done].
  - intros H. by right.
Qed.

Lemma required_missing_issues cfg :
  Forall (fun i => i = wifi_credentials_missing ∨ i = server_url_missing)
    (List.filter (has_code REQUIRED_MISSING) (validate cfg)).
Proof.
  rewrite validate_app, List.filter_app.
  assert (List.filter (has_code REQUIRED_MISSING) (flat_map (run_check cfg) pin_checks)
          = []) as ->.
  { eapply filter_none; [|apply pin_checks_codes].
    intros i Hi. apply has_code_spec in Hi. intros [|]; congruence. }
  rewrite app_nil_r, presence_issues.
  destruct (_ && _), (bool_decide _); simpl;
    repeat first [apply Forall_nil; exact I | apply Forall_cons; [by auto|]].
Qed.

(** The issues of the presence checks are the issues with code
    [REQUIRED_MISSING]. *)
Lemma required_missing_presence cfg :
  List.filter (has_code REQUIRED_MISSING) (validate cfg)
  = flat_map (run_check cfg) presence_checks.
Proof.
  rewrite validate_app, List.filter_app.
  assert (List.filter (has_code REQUIRED_MISSING) (flat_map (run_check cfg) pin_checks)
          = []) as ->.
  { eapply filter_none; [|apply pin_checks_codes].
    intros i Hi. apply has_code_spec in Hi. intros [|]; congruence. }
  rewrite app_nil_r, presence_issues.
  by destruct (_ && _), (bool_decide _).
Qed.

(** They only depend on which connectivity macros are defined. *)
Lemma required_missing_ext cfg cfg' :
  (∀ k, k ∈ connectivity_fields → cfg !! k = cfg' !! k) →
  List.filter (has_code REQUIRED_MISSING) (validate cfg)
  = List.filter (has_code REQUIRED_MISSING) (validate cfg').
Proof.
  intros Hsame. rewrite !required_missing_presence, !presence_issues.
  unfold connectivity_fields in Hsame.
  rewrite (Hsame "WIFI_SSID"), (Hsame "WIFI_PASSWORD"), (Hsame "SERVER_URL");
    [done|rewrite !elem_of_cons; auto..].
Qed.

(** No compiled-in configuration has a switch that leads to a threshold
    macro. *)
Lemma compiled_in_reads_no_threshold (selected : preset → bool) :
  Forall (fun k => k ∉ dependencies (device_config_h selected)) threshold_fields.
Proof.
  unfold device_config_h, presets. cbn [fold_left]. unfold ifdef.
  destruct (selected PRESET_KITCHEN), (selected PRESET_SECURITY),
    (selected PRESET_ENVIRONMENTAL);
    apply (bool_decide_unpack _); vm_compute; exact I.
Qed.

(** ** The compiled-in configurations *)

(** C9: with no preset selected the header resolves to its defaults, which
    are accepted without any error or warning: the identity and
    connectivity fields are non-empty, every threshold pair has its
    minimum strictly below its maximum, and of the three sensors on A0
    only the light sensor is enabled. *)
Theorem default_resolution_clean :
  device_config_h no_preset = registry
  ∧ validate registry = []
  ∧ errors registry = []
  ∧ warnings registry = []
  ∧ activatable registry = true
  ∧ forallb (non_empty registry) (identity_fields ++ connectivity_fields) = true
  ∧ forallb (min_below_max registry) threshold_pairs = true
  ∧ sensors_on registry "A0"
    = ["SENSOR_LIGHT_ENABLED"; "SENSOR_SOUND_ENABLED"; "SENSOR_GAS_ENABLED"]
  ∧ enabled registry <$> sensors_on registry "A0" = [true; false; false].
Proof.
  assert (validate registry = []) as Hclean by (vm_compute; reflexivity).
  split; [reflexivity|]. split; [exact Hclean|].
  unfold activatable, errors, warnings. rewrite Hclean.
  repeat split; vm_compute; reflexivity.
Qed.

(** C10: the environmental preset switches the gas sensor on and leaves
    the light sensor on; both are wired to A0, so the resolved
    configuration gets the light/gas warning, which names both switches,
    where the defaults get none; there is still no error, so the
    configuration is activatable. *)
Theorem environmental_preset_pin_conflict :
  device_config_h (only PRESET_ENVIRONMENTAL)
  = resolve registry (Some (preset_block PRESET_ENVIRONMENTAL))
  ∧ enabled registry "SENSOR_GAS_ENABLED" = false
  ∧ warnings registry = []
  ∧ enabled (device_config_h (only PRESET_ENVIRONMENTAL)) "SENSOR_LIGHT_ENABLED" = true
  ∧ enabled (device_config_h (only PRESET_ENVIRONMENTAL)) "SENSOR_GAS_ENABLED" = true
  ∧ share_pin (device_config_h (only PRESET_ENVIRONMENTAL))
      "SENSOR_LIGHT_ENABLED" "SENSOR_GAS_ENABLED" = true
  ∧ warnings (device_config_h (only PRESET_ENVIRONMENTAL)) = [light_gas_conflict]
  ∧ issue_code_of light_gas_conflict = PIN_CONFLICT
  ∧ issue_fields light_gas_conflict = ["SENSOR_LIGHT_ENABLED"; "SENSOR_GAS_ENABLED"]
  ∧ errors (device_config_h (only PRESET_ENVIRONMENTAL)) = []
  ∧ activatable (device_config_h (only PRESET_ENVIRONMENTAL)) = true.
Proof.
  split; [reflexivity|].
  assert (validate (device_config_h (only PRESET_ENVIRONMENTAL)) = [light_gas_conflict])
    as Hissues by (vm_compute; reflexivity).
  unfold activatable, errors, warnings at 2. rewrite Hissues.
  repeat split; vm_compute; reflexivity.
Qed.

(** ** Shared pins *)

(** C2 (the pair the header misses): with the light sensor off and the
    sound and gas sensors on, two enabled sensors share A0 and the
    validation block emits nothing. *)
Theorem sound_gas_conflict_unreported :
  enabled (apply_block sound_and_gas registry) "SENSOR_SOUND_ENABLED" = true
  ∧ enabled (apply_block sound_and_gas registry) "SENSOR_GAS_ENABLED" = true
  ∧ pins_of (apply_block sound_and_gas registry) "SENSOR_SOUND_ENABLED" = ["A0"]
  ∧ pins_of (apply_block sound_and_gas registry) "SENSOR_GAS_ENABLED" = ["A0"]
  ∧ share_pin (apply_block sound_and_gas registry)
      "SENSOR_SOUND_ENABLED" "SENSOR_GAS_ENABLED" = true
  ∧ overlay_of registry sound_and_gas = true
  ∧ validate (apply_block sound_and_gas registry) = [].
Proof. repeat split; vm_compute; reflexivity. Qed.

(** The two pairs the header does check: whenever the light sensor is
    enabled together with the sound or the gas sensor, the matching
    warning is emitted. *)
Lemma light_conflicts_reported cfg :
  enabled cfg "SENSOR_LIGHT_ENABLED" = true →
  (enabled cfg "SENSOR_SOUND_ENABLED" = true → light_sound_conflict ∈ validate cfg)
  ∧ (enabled cfg "SENSOR_GAS_ENABLED" = true → light_gas_conflict ∈ validate cfg).
Proof.
  unfold enabled. rewrite validate_app. unfold pin_checks.
  cbn [flat_map run_check eval_cond].
  destruct (truth (expand cfg (VIdent "SENSOR_LIGHT_ENABLED"))) as [[]|]; [|done..].
  intros _. split.
  - destruct (truth (expand cfg (VIdent "SENSOR_SOUND_ENABLED"))) as [[]|]; [|done..].
    intros _. apply elem_of_app. right. apply list_elem_of_here.
  - destruct (truth (expand cfg (VIdent "SENSOR_GAS_ENABLED"))) as [[]|]; [|done..].
    intros _. apply elem_of_app. right. apply elem_of_app. right.
    apply list_elem_of_here.
Qed.

(** The standing of a warning: a configuration whose issues are all
    warnings is activatable. *)
Lemma warnings_do_not_block cfg :
  Forall (fun i => issue_severity i = SevWarning) (validate cfg) →
  activatable cfg = true.
Proof.
  intros Hall. apply activatable_spec. eapply List.Forall_impl; [|exact Hall].
  intros i Hi. unfold is_error. by rewrite Hi.
Qed.

(** ** Thresholds *)

(** C3 (as stated, refuted): the temperature thresholds 40.0 and -10.0 are
    inverted, yet validation reports nothing and the configuration is
    activatable. *)
Lemma inverted_thresholds_accepted :
  inverted (apply_block inverted_temperature registry)
    ("TEMP_THRESHOLD_MIN", "TEMP_THRESHOLD_MAX") = true
  ∧ validate (apply_block inverted_temperature registry) = []
  ∧ activatable (apply_block inverted_temperature registry) = true.
Proof. repeat split; vm_compute; reflexivity. Qed.

(** C3 (amended): the validation block has no threshold check.  No
    configuration gets a [THRESHOLD_INVERTED] issue.  The issues of a
    table only depend on the macros the block looks up in it (the names
    in its [#if] lines and the names their bodies lead to): a macro that
    is not among them, a threshold in particular, can be given any value
    without a change of the issues.  In the compiled-in configurations no
    threshold macro is among them, under any choice of preset switches,
    so there the thresholds can be set to anything. *)
Theorem thresholds_not_validated (cfg : ResolvedConfig) :
  List.filter (has_code THRESHOLD_INVERTED) (validate cfg) = []
  ∧ (∀ k v, k ∉ dependencies cfg → validate (<[k := v]> cfg) = validate cfg)
  ∧ (∀ (selected : preset → bool),
        Forall (fun k => (k ∉ dependencies (device_config_h selected))
                         ∧ (∀ v, validate (<[k := v]> (device_config_h selected))
                                 = validate (device_config_h selected)))
          threshold_fields).
Proof.
  split; [apply validate_no_threshold_issue|]. split.
  - intros k v Hk. by apply validate_insert.
  - intros selected.
    eapply List.Forall_impl; [|apply compiled_in_reads_no_threshold].
    intros k Hk. split; [exact Hk|]. intros v. by apply validate_insert.
Qed.

Lemma thresholds_not_validated_witness :
  validate (<["TEMP_THRESHOLD_MIN" := VFloat (40 # 1)]> registry) = validate registry.
Proof.
  apply (proj1 (proj2 (thresholds_not_validated registry))
           "TEMP_THRESHOLD_MIN" (VFloat (40 # 1))).
  apply (bool_decide_unpack _). vm_compute. exact I.
Defined.

(** ** Required fields *)

(** C6 (as stated, refuted): with an empty device id, no device name and
    an empty network name, validation reports nothing. *)
Lemma blank_identity_accepted :
  non_empty (apply_block blank_identity registry) "DEVICE_ID" = false
  ∧ non_empty (apply_block blank_identity registry) "DEVICE_NAME" = false
  ∧ non_empty (apply_block blank_identity registry) "WIFI_SSID" = false
  ∧ validate (apply_block blank_identity registry) = [].
Proof. repeat split; vm_compute; reflexivity. Qed.

(** C6 (amended): the presence checks test whether the three connectivity
    macros are defined.  The WiFi error, which names [WIFI_SSID] and
    [WIFI_PASSWORD], is emitted exactly when one of the two is undefined,
    the server error exactly when [SERVER_URL] is undefined, and these are
    the only [REQUIRED_MISSING] issues; the device id and the device name
    are not looked at by these checks: defining, changing or undefining
    them leaves the [REQUIRED_MISSING] issues as they are. *)
Theorem required_presence_checks_definedness (cfg : ResolvedConfig) :
  (wifi_credentials_missing ∈ validate cfg
   ↔ cfg !! "WIFI_SSID" = None ∨ cfg !! "WIFI_PASSWORD" = None)
  ∧ (server_url_missing ∈ validate cfg ↔ cfg !! "SERVER_URL" = None)
  ∧ Forall (fun i => i = wifi_credentials_missing ∨ i = server_url_missing)
      (List.filter (has_code REQUIRED_MISSING) (validate cfg))
  ∧ Forall (fun k =>
              (∀ v, List.filter (has_code REQUIRED_MISSING) (validate (<[k := v]> cfg))
                    = List.filter (has_code REQUIRED_MISSING) (validate cfg))
              ∧ List.filter (has_code REQUIRED_MISSING) (validate (delete k cfg))
                = List.filter (has_code REQUIRED_MISSING) (validate cfg))
      identity_fields.
Proof.
  split; [apply wifi_missing_iff|]. split; [apply server_missing_iff|].
  split; [apply required_missing_issues|].
  assert (Forall (fun k => k ∉ connectivity_fields) identity_fields) as Hid.
  { apply (bool_decide_unpack _). vm_compute. exact I. }
  eapply List.Forall_impl; [|exact Hid]. intros k Hk. split.
  - intros v. apply required_missing_ext. intros k' Hk'.
    apply lookup_insert_ne. congruence.
  - apply required_missing_ext. intros k' Hk'.
    apply lookup_delete_ne. congruence.
Qed.

(** ** Persisted store *)

Lemma byte_length_fits z : 0 < z → z < 2 ^ (Z.of_nat (byte_length z) * 8).
Proof.
  intros Hz. unfold byte_length.
  pose proof (Z.log2_nonneg z) as Hlog.
  pose proof (Z.log2_spec z Hz) as [_ Hhi].
  pose proof (Z.div_pos (Z.log2 z) 8 Hlog ltac:(lia)) as Hdiv.
  rewrite Z2Nat.id by lia.
  eapply Z.lt_le_trans; [exact Hhi|].
  apply Z.pow_le_mono_r; [lia|].
  pose proof (Z.mul_succ_div_gt (Z.log2 z) 8 ltac:(lia)). lia.
Qed.

Lemma deserialize_serialize cfg : deserialize (serialize cfg) = Some cfg.
Proof.
  unfold deserialize, serialize. cbv zeta.
  rewrite le_combine_split.
  rewrite Z.mod_small by (split; [lia|apply byte_length_fits; lia]).
  apply decode_encode.
Qed.

Section GuardProperties.

Variable tag_of : list byte → Z.
Variable version : Z.

Lemma load_corrupt r :
  integrity_tag r ≠ tag_of (serialized_config r) ∨ schema_version r ≠ version →
  load tag_of version r = CORRUPT.
Proof.
  intros Hbad. unfold load.
  destruct (bool_decide (schema_version r = version)) eqn:Hv;
    destruct (bool_decide (integrity_tag r = tag_of (serialized_config r))) eqn:Ht;
    try reflexivity.
  apply bool_decide_eq_true in Hv, Ht. by destruct Hbad.
Qed.

Lemma load_saved cfg r :
  save tag_of version cfg = SAVED r → load tag_of version r = VALID cfg.
Proof.
  unfold save. destruct (activatable cfg); [|done].
  intros [= <-]. unfold load. cbn [schema_version integrity_tag serialized_config].
  rewrite !bool_decide_eq_true_2 by done. cbn [andb].
  by rewrite deserialize_serialize.
Qed.

Lemma save_activatable cfg :
  activatable cfg = true →
  save tag_of version cfg
  = SAVED (mkRecord version (tag_of (serialize cfg)) (serialize cfg)).
Proof. intros Hact. unfold save. by rewrite Hact. Qed.

End GuardProperties.

(** Every compiled-in resolution is accepted by the validation block. *)
Lemma compiled_in_activatable (choice : option preset) :
  activatable (resolve registry (preset_block <$> choice)) = true.
Proof. destruct choice as [[]|]; vm_compute; reflexivity. Qed.

(** C4: a record whose tag is not the tag recomputed over its bytes, or
    whose schema version is not the recognized one, loads as [CORRUPT]
    ([load] has no other outcome than a configuration or this report);
    the boot sequence then takes the configuration resolved from the
    compiled-in registry and the chosen preset, which is activatable, and
    leaves a store that loads as that configuration. *)
Theorem corrupt_record_falls_back
    (tag_of : list byte → Z) (version : Z) (r : PersistedRecord) :
  integrity_tag r ≠ tag_of (serialized_config r) ∨ schema_version r ≠ version →
  load tag_of version r = CORRUPT
  ∧ ∀ choice : option preset,
      (boot tag_of version registry (preset_block <$> choice) r).1
      = resolve registry (preset_block <$> choice)
      ∧ resolve registry (preset_block <$> choice) = device_config_h (select choice)
      ∧ activatable (resolve registry (preset_block <$> choice)) = true
      ∧ load tag_of version (boot tag_of version registry (preset_block <$> choice) r).2
        = VALID (resolve registry (preset_block <$> choice)).
Proof.
  intros Hbad. pose proof (load_corrupt tag_of version r Hbad) as Hload.
  split; [exact Hload|]. intros choice.
  pose proof (compiled_in_activatable choice) as Hact.
  unfold boot. rewrite Hload. cbv zeta.
  rewrite (save_activatable tag_of version _ Hact). cbn [fst snd].
  split; [done|]. split; [by rewrite device_config_h_select|]. split; [done|].
  apply load_saved. by apply save_activatable.
Qed.

Lemma corrupt_record_falls_back_witness :
  load (fun _ => 0x12345678) 1 (mkRecord 1 0 []) = CORRUPT.
Proof.
  apply (corrupt_record_falls_back (fun _ => 0x12345678) 1 (mkRecord 1 0 [])).
  left. simpl. lia.
Defined.

(** C5: saving an activatable configuration succeeds, and loading the
    record it wrote gives back the configuration that was saved. *)
Theorem save_load_round_trip
    (tag_of : list byte → Z) (version : Z) (cfg : ResolvedConfig) :
  activatable cfg = true →
  ∃ r, save tag_of version cfg = SAVED r ∧ load tag_of version r = VALID cfg.
Proof.
  intros Hact. eexists. split; [by apply save_activatable|].
  apply load_saved. by apply save_activatable.
Qed.

Lemma save_load_round_trip_witness :
  ∃ r, save (fun _ => 0x12345678) 1 registry = SAVED r
       ∧ load (fun _ => 0x12345678) 1 r = VALID registry.
Proof.
  apply (save_load_round_trip (fun _ => 0x12345678) 1 registry).
  vm_compute. reflexivity.
Defined.

(** ** Connectivity failures *)

Lemma count_after_snoc events ev :
  count_after (events ++ [ev]) = count_event (count_after events) ev.
Proof. unfold count_after. by rewrite fold_left_app. Qed.

(** The count is the number of failures since the last success. *)
Lemma count_after_trailing events :
  count_after events = trailing_failures events.
Proof.
  unfold trailing_failures.
  induction events as [|ev events IH] using rev_ind; [done|].
  rewrite count_after_snoc, rev_unit. destruct ev; simpl; [done|].
  by rewrite IH.
Qed.

Lemma signals_from_failures ceiling failed k :
  signals_from ceiling failed (repeat ConnectFailure k)
  = (fun i => (ceiling <=? failed + S i)%nat) <$> seq 0 k.
Proof.
  revert failed. induction k as [|k IH]; intros failed; [done|].
  cbn [repeat signals_from on_event count_event restart_requested seq].
  rewrite fmap_cons, Nat.add_1_r. f_equal.
  rewrite IH, <- seq_shift, <- list_fmap_compose.
  apply list_fmap_ext. intros _ i _. cbn [compose]. f_equal. lia.
Qed.

(** C8: every compiled-in configuration sets the ceiling to 5.  After any
    run of connect events the restart request is up exactly when the
    failures since the last success have reached the ceiling; counting
    from a fresh guard, the n-th failure in a row raises it exactly when n
    has reached the ceiling, so with the ceiling at 5 the fifth failure is
    the first to raise it.  Handling an event only moves the count: a
    failure adds one whether or not the request is raised, and a success
    clears the count and the request. *)
Theorem restart_signal_at_ceiling :
  (∀ choice : option preset,
      failure_ceiling (device_config_h (select choice)) = Some 5%nat)
  ∧ (∀ (ceiling : nat) (events : list connectivity_event),
        restart_requested ceiling (count_after events) = true
        ↔ (ceiling ≤ trailing_failures events)%nat)
  ∧ (∀ (ceiling k : nat),
        signals_from ceiling 0 (repeat ConnectFailure k)
        = (fun i => (ceiling <=? S i)%nat) <$> seq 0 k)
  ∧ signals_from 5 0 (repeat ConnectFailure 6)
    = [false; false; false; false; true; true]
  ∧ (∀ (ceiling failed : nat),
        on_event ceiling failed ConnectFailure
        = (S failed, restart_requested ceiling (S failed)))
  ∧ (∀ (ceiling failed : nat),
        on_event (S ceiling) failed ConnectSuccess = (0%nat, false)).
Proof.
  split; [|split; [|split; [|split; [|split]]]].
  - intros [[]|]; vm_compute; reflexivity.
  - intros ceiling events. rewrite count_after_trailing.
    unfold restart_requested. apply Nat.leb_le.
  - intros ceiling k. apply signals_from_failures.
  - reflexivity.
  - reflexivity.
  - reflexivity.
Qed.

(** * Further properties *)

(** ** Blocks *)

Lemma overlay_map_untouched b k : k ∉ block_names b → overlay_map b !! k = None.
Proof.
  intros Hk. unfold overlay_map. rewrite apply_block_untouched by done.
  apply lookup_empty.
Qed.

Lemma redefines_all_spec b k :
  redefines_all b = true → k ∈ block_names b → is_Some (overlay_map b !! k).
Proof.
  unfold redefines_all. rewrite forallb_forall. intros Hall Hk.
  apply list_elem_of_In, Hall in Hk. by apply bool_decide_eq_true in Hk.
Qed.

(** X1: a block that defines again every name it touches (the
    [#undef]/[#define] idiom of the presets) acts on any table as the
    left-biased union with the table the block stands for: its names get
    the block's values, every other entry is kept, whether or not the
    names were defined before. *)
Theorem redefining_block_is_union (b : list edit) (cfg : ResolvedConfig) :
  redefines_all b = true → apply_block b cfg = overlay_map b ∪ cfg.
Proof.
  intros Hb. apply map_eq. intros k.
  destruct (decide (k ∈ block_names b)) as [Hk|Hk].
  - destruct (redefines_all_spec b k Hb Hk) as [v Hv].
    rewrite (apply_block_touched b cfg ∅ k Hk).
    fold (overlay_map b). rewrite Hv. symmetry. by apply lookup_union_Some_l.
  - rewrite apply_block_untouched by done. symmetry.
    rewrite lookup_union_r; [done|]. by apply overlay_map_untouched.
Qed.

Lemma redefining_block_is_union_witness :
  apply_block (preset_block PRESET_KITCHEN) ∅
  = overlay_map (preset_block PRESET_KITCHEN) ∪ ∅.
Proof.
  apply (redefining_block_is_union (preset_block PRESET_KITCHEN) ∅).
  vm_compute. reflexivity.
Defined.

(** X2: processing any block a second time changes nothing. *)
Theorem apply_block_idempotent (b : list edit) (cfg : ResolvedConfig) :
  apply_block b (apply_block b cfg) = apply_block b cfg.
Proof.
  apply map_eq. intros k. destruct (decide (k ∈ block_names b)) as [Hk|Hk].
  - by apply apply_block_touched.
  - by rewrite !apply_block_untouched.
Qed.

(** X3: two blocks with no name in common can be processed in either
    order. *)
Theorem disjoint_blocks_commute (b1 b2 : list edit) (cfg : ResolvedConfig) :
  Forall (fun k => k ∉ block_names b2) (block_names b1) →
  apply_block b1 (apply_block b2 cfg) = apply_block b2 (apply_block b1 cfg).
Proof.
  intros Hdisj. rewrite List.Forall_forall in Hdisj.
  apply map_eq. intros k. destruct (decide (k ∈ block_names b1)) as [H1|H1].
  - assert (k ∉ block_names b2) as H2 by by apply Hdisj, list_elem_of_In.
    rewrite (apply_block_untouched b2) by done.
    by apply apply_block_touched.
  - rewrite (apply_block_untouched b1) by done.
    destruct (decide (k ∈ block_names b2)) as [H2|H2].
    + by apply apply_block_touched.
    + by rewrite !(apply_block_untouched b2), (apply_block_untouched b1).
Qed.

Lemma disjoint_blocks_commute_witness :
  apply_block sound_and_gas (apply_block inverted_temperature ∅)
  = apply_block inverted_temperature (apply_block sound_and_gas ∅).
Proof.
  apply (disjoint_blocks_commute sound_and_gas inverted_temperature ∅).
  apply (bool_decide_unpack _). vm_compute. exact I.
Defined.

(** ** Several switches at once *)

Lemma touches_spec p k : touches p k = true ↔ k ∈ block_names (preset_block p).
Proof. unfold touches. apply bool_decide_eq_true. Qed.

Lemma ifdef_lookup selected cfg p k :
  ifdef selected cfg p !! k
  = if selected p && touches p k then overlay_map (preset_block p) !! k else cfg !! k.
Proof.
  unfold ifdef. destruct (selected p); cbn [andb]; [|done].
  destruct (touches p k) eqn:Hk.
  - apply apply_block_touched. by apply touches_spec.
  - apply apply_block_untouched. intros Hin. apply touches_spec in Hin. congruence.
Qed.

(** The entry of a name after a run of [#ifdef] blocks. *)
Lemma fold_ifdef_lookup selected ps cfg k :
  fold_left (ifdef selected) ps cfg !! k
  = match List.find (fun p => selected p && touches p k) (rev ps) with
    | Some p => overlay_map (preset_block p) !! k
    | None => cfg !! k
    end.
Proof.
  induction ps as [|p ps IH] using rev_ind; [done|].
  rewrite fold_left_app, rev_unit. cbn [fold_left List.find].
  rewrite ifdef_lookup. by destruct (selected p && touches p k).
Qed.

(** X4: with any number of preset switches defined, a field has the
    value given by the last block of the header that is switched on and
    has a line about it, and its default when there is no such block. *)
Theorem last_preset_wins (selected : preset → bool) (k : string) :
  device_config_h selected !! k
  = match override_of selected k with
    | Some p => overlay_map (preset_block p) !! k
    | None => registry !! k
    end.
Proof. apply fold_ifdef_lookup. Qed.

Lemma preset_fields_touches p k : k ∉ preset_fields → touches p k = false.
Proof.
  intros Hk. destruct (touches p k) eqn:Ht; [|done]. destruct Hk.
  apply touches_spec in Ht. unfold preset_fields, presets.
  cbn [flat_map]. rewrite !elem_of_app. destruct p; auto.
Qed.

(** X5: a field no preset block has a line about (the network settings,
    every pin, every threshold but the temperature maximum, the advanced
    settings) keeps its default under every choice of switches. *)
Theorem presets_keep_other_fields (selected : preset → bool) (k : string) :
  k ∉ preset_fields → device_config_h selected !! k = registry !! k.
Proof.
  intros Hk. unfold device_config_h. rewrite fold_ifdef_lookup.
  unfold presets. cbn [rev app List.find].
  by rewrite !(preset_fields_touches _ k Hk), !andb_false_r.
Qed.

Lemma presets_keep_other_fields_witness :
  device_config_h (fun _ => true) !! "MAX_FAILED_CONNECTIONS"
  = registry !! "MAX_FAILED_CONNECTIONS".
Proof.
  apply (presets_keep_other_fields (fun _ => true) "MAX_FAILED_CONNECTIONS").
  apply (bool_decide_unpack _). vm_compute. exact I.
Defined.

(** X6: whatever preset switches are defined, the header compiles: no
    [#error] is reached, the identity and connectivity fields are
    non-empty and every threshold pair is in order.  The light/gas
    warning is issued exactly when the environmental preset is among the
    switches, and there is never another warning. *)
Theorem every_selection_compiles (selected : preset → bool) :
  errors (device_config_h selected) = []
  ∧ warnings (device_config_h selected)
    = (if selected PRESET_ENVIRONMENTAL then [light_gas_conflict] else [])
  ∧ forallb (non_empty (device_config_h selected))
      (identity_fields ++ connectivity_fields) = true
  ∧ forallb (min_below_max (device_config_h selected)) threshold_pairs = true.
Proof.
  unfold device_config_h, presets. cbn [fold_left]. unfold ifdef.
  destruct (selected PRESET_KITCHEN), (selected PRESET_SECURITY),
    (selected PRESET_ENVIRONMENTAL); repeat split; vm_compute; reflexivity.
Qed.

(** ** The validation block on any table *)








(** ** Wiring *)

(** X10: no preset changes the wiring.  Under every choice of switches
    the sensors that share a pin are the light, sound and gas sensors on
    A0, pairwise, and no two other sensors share any pin. *)
Theorem wiring_is_fixed (selected : preset → bool) :
  shared_pins (device_config_h selected)
  = [ ("SENSOR_LIGHT_ENABLED", "SENSOR_SOUND_ENABLED");
      ("SENSOR_LIGHT_ENABLED", "SENSOR_GAS_ENABLED");
      ("SENSOR_SOUND_ENABLED", "SENSOR_GAS_ENABLED") ]
  ∧ Forall (fun s => pins_of (device_config_h selected) (fst s)
                     = pins_of registry (fst s)) sensor_pins.
Proof.
  unfold device_config_h, presets. cbn [fold_left]. unfold ifdef.
  destruct (selected PRESET_KITCHEN), (selected PRESET_SECURITY),
    (selected PRESET_ENVIRONMENTAL);
    (split; [vm_compute; reflexivity|apply (bool_decide_unpack _); vm_compute; exact I]).
Qed.

(** ** The header as a whole *)

Lemma header_lines_table selected :
  apply_block (header_lines selected) ∅ = device_config_h selected.
Proof.
  unfold header_lines, apply_block, device_config_h, presets.
  rewrite fold_left_app. cbn [flat_map fold_left]. unfold ifdef.
  fold (apply_block defaults ∅). fold registry.
  destruct (selected PRESET_KITCHEN), (selected PRESET_SECURITY),
    (selected PRESET_ENVIRONMENTAL);
    cbn [app]; rewrite ?app_nil_r, ?fold_left_app; reflexivity.
Qed.

(** X11: under every choice of switches the header is processed without
    a redefinition: each [#define] of the defaults and of the blocks
    switched on meets a macro that is not defined at that point, and each
    [#undef] one that is, also when several presets are switched on. *)
Theorem header_never_redefines (selected : preset → bool) :
  no_redefinition (header_lines selected) ∅ = true
  ∧ apply_block (header_lines selected) ∅ = device_config_h selected.
Proof.
  split; [|apply header_lines_table].
  unfold header_lines, presets. cbn [flat_map].
  destruct (selected PRESET_KITCHEN), (selected PRESET_SECURITY),
    (selected PRESET_ENVIRONMENTAL); vm_compute; reflexivity.
Qed.

(** ** Example headers *)

(** X12: each example header defines every macro only once and defines
    all macros of [device_config.h] except the same fourteen (the WiFi
    connection settings and the advanced, transmission and power
    settings), and wires every sensor to the pins [device_config.h]
    uses. *)
Theorem example_headers_cover_sensors :
  Forall (fun h =>
            no_redefinition h ∅ = true
            ∧ List.filter (fun k => negb (defined (header_table h) k)) (block_names defaults)
              = left_out_by_examples
            ∧ Forall (fun s => pins_of (header_table h) (fst s) = pins_of registry (fst s))
                sensor_pins)
    example_headers.
Proof.
  unfold example_headers.
  repeat (apply Forall_cons;
          [split; [vm_compute; reflexivity|];
           split; [vm_compute; reflexivity|];
           apply (bool_decide_unpack _); vm_compute; exact I|]).
  apply Forall_nil_2.
Qed.

